(** * react-component-test-suite: argument resolution, component naming,
      suite registration and the per-test protocol

    Shallow embedding of [src/componentSuite.tsx] and [src/utils.ts].

    - JavaScript values whose run-time shape the code probes
      ([resolveTestSuiteArgs], [mapTestList]) are modelled dynamically:
      [JsVal], with objects as finite maps from property names to values.
    - React elements, suite options and test entries are records that
      follow the TypeScript declarations.
    - Code that throws, or that registers suites and tests with the test
      framework, runs in a small state-and-exception monad. *)

From stdpp Require Import gmap strings list fin_maps.

Local Open Scope string_scope.
Local Open Scope list_scope.
Local Set Warnings "-register-all".

(* ===================================================================== *)
(** ** JavaScript values *)
(* ===================================================================== *)

Module Js.

(** The values that can appear in an argument array. Numbers are the
    integer-valued ones plus [NaN]; functions and React elements are
    opaque references here, since the code only passes them along. *)
Inductive JsVal : Type :=
| VUndefined
| VNull
| VBool (b : bool)
| VNum (z : Z)
| VNaN
| VStr (s : string)
| VFun (ref : nat)
| VArr (items : list JsVal)
| VObj (fields : gmap string JsVal).

(** [ToBoolean]: what [!x] and [x ? a : b] test. *)
Definition truthy (v : JsVal) : bool :=
  match v with
  | VUndefined | VNull | VNaN => false
  | VBool b => b
  | VNum z => negb (z =? 0)%Z
  | VStr s => negb (String.eqb s "")
  | VFun _ | VArr _ | VObj _ => true
  end.

(** [Array.isArray]. *)
Definition isArray (v : JsVal) : bool :=
  match v with VArr _ => true | _ => false end.

(** [a ?? b]: [b] exactly when [a] is [null] or [undefined]. *)
Definition nullish_coalesce (a b : JsVal) : JsVal :=
  match a with
  | VUndefined | VNull => b
  | _ => a
  end.

(** [arr[i]] on an array: [undefined] when out of range. *)
Definition index (arr : list JsVal) (i : nat) : JsVal :=
  default VUndefined (arr !! i).

(** The empty object literal and the empty array literal. *)
Definition emptyObject : JsVal := VObj ∅.
Definition emptyArray : JsVal := VArr [].

(** Object spread [{ ...a, ...b }]: the properties of [a], then those of
    [b], so [b] wins where both define a key. *)
Definition spread2 {V} (a b : gmap string V) : gmap string V := b ∪ a.

End Js.
Import Js.

(* ===================================================================== *)
(** ** [resolveTestSuiteArgs] *)
(* ===================================================================== *)

Record ResolvedArgs := mkResolved {
  overallOptions : JsVal;
  tests : JsVal
}.

(** <<
    const [first, second] = args
    if (!first) return { overallOptions: {}, tests: [] }
    if (Array.isArray(first)) return { overallOptions: {}, tests: first }
    return { overallOptions: first, tests: second ?? [] }
    >> *)
Definition resolveTestSuiteArgs (args : list JsVal) : ResolvedArgs :=
  let first := index args 0 in
  let second := index args 1 in
  if negb (truthy first) then
    mkResolved emptyObject emptyArray
  else if isArray first then
    mkResolved emptyObject first
  else
    mkResolved first (nullish_coalesce second emptyArray).

(* ===================================================================== *)
(** ** [mapTestList] *)
(* ===================================================================== *)

(** <<
    args?.map((t) => ({ ...t, ...callback(t) }))
    >>
    [None] is [undefined]; an entry is an object with arbitrary fields. *)
Definition mapTestList {V} (args : option (list (gmap string V)))
    (callback : gmap string V → gmap string V) : option (list (gmap string V)) :=
  match args with
  | None => None
  | Some l => Some (map (λ t, spread2 t (callback t)) l)
  end.

(* ===================================================================== *)
(** ** Exceptions and effects *)
(* ===================================================================== *)

(** What a [throw] carries. [src] only ever constructs plain [Error]s;
    [expect(fn).not.toThrow()] fails with an assertion error about the
    exception [fn] threw. *)
Inductive JsError : Type :=
| Error (message : string)
| AssertionError_notToThrow (thrown : JsError).

(** How a call ends: it returns a value or throws. *)
Inductive Completion (A : Type) : Type :=
| Return (a : A)
| Throw (e : JsError).
Arguments Return {A} a.
Arguments Throw {A} e.

(** A computation over a mutable state [S] that may throw. A [throw]
    keeps the state reached so far: nothing is rolled back. *)
Definition Eff (S A : Type) : Type := S → S * Completion A.

Definition ret {S A} (a : A) : Eff S A := λ s, (s, Return a).

Definition throw {S A} (e : JsError) : Eff S A := λ s, (s, Throw e).

Definition bind {S A B} (c : Eff S A) (k : A → Eff S B) : Eff S B :=
  λ s, match c s with
       | (s', Return a) => k a s'
       | (s', Throw e) => (s', Throw e)
       end.

(** A pure call that may throw, run inside a stateful computation. *)
Definition liftC {S A} (c : Completion A) : Eff S A := λ s, (s, c).

Notation "x <~ c ;; k" := (bind c (λ x, k))
  (at level 20, c at level 99, k at level 200).
Notation "c ;; k" := (bind c (λ _, k))
  (at level 100, k at level 200, right associativity).

(** [for (const x of xs) body(x)]: a throwing iteration ends the loop. *)
Fixpoint forOf {S A} (xs : list A) (body : A → Eff S unit) : Eff S unit :=
  match xs with
  | [] => ret tt
  | x :: rest => body x ;; forOf rest body
  end.

(* ===================================================================== *)
(** ** React elements and [getComponentName] *)
(* ===================================================================== *)

(** What [element.type] can be. A function always has a [name] (the empty
    string when anonymous) and may carry a [displayName]; the objects made
    by [React.memo] and [React.forwardRef] have no [name]; [React.Fragment]
    is a symbol and has neither. [ref] tells function objects apart. *)
Inductive ElementType : Type :=
| FunctionComponent (ref : nat) (name : string) (displayName : option string)
| ExoticComponent (ref : nat) (displayName : option string)
| Fragment.

(** A React element. [children] is [props.children]; [props] are the other
    props, which this code never reads. *)
Inductive Element : Type := mkElement {
  type : ElementType;
  props : list (string * string);
  children : list Element;
  displayName : option string
}.

(** [type.name] and [type.displayName]; [None] is [undefined]. *)
Definition type_name (t : ElementType) : option string :=
  match t with
  | FunctionComponent _ n _ => Some n
  | ExoticComponent _ _ | Fragment => None
  end.

Definition type_displayName (t : ElementType) : option string :=
  match t with
  | FunctionComponent _ _ d | ExoticComponent _ d => d
  | Fragment => None
  end.

(** [<T>{child}</T>]. *)
Definition createElement (T : ElementType) (child : Element) : Element :=
  mkElement T [] [child] None.

(** Truthiness of a [string | undefined], and [a || b] on such values. *)
Definition str_truthy (a : option string) : bool :=
  match a with
  | Some s => negb (String.eqb s "")
  | None => false
  end.

Definition jsOr (a b : option string) : option string :=
  if str_truthy a then a else b.

Definition noNameMessage : string :=
  "Component has no name. May be a React.MemoExoticComponent-- if so, set displayName on the component.".

(** <<
    const name = Component.type.name || Component.type.displayName
      || Component.displayName
    if (!name) throw new Error('Component has no name. ...')
    return name
    >> *)
Definition getComponentName (Component : Element) : Completion string :=
  let name :=
    jsOr (jsOr (type_name (type Component))
               (type_displayName (type Component)))
         (displayName Component) in
  if negb (str_truthy name) then Throw (Error noNameMessage)
  else Return (default "" name).

(* ===================================================================== *)
(** ** The test framework and the caller's functions *)
(* ===================================================================== *)

(** The calls a running test makes to functions supplied by the caller,
    in the order they are made. *)
Inductive Call : Type :=
| CalledBeforeRender
| CalledRender (ui : Element)
| CalledAfterRender.

(** [describe], [describe.skip] and [describe.only]: each registers a
    grouping block and runs its body at once. *)
Inductive SuiteFn : Type := describe | describe_skip | describe_only.

(** The lifecycle hooks [insideSuite] is documented to register. *)
Inductive LifecycleKind : Type := beforeEach | beforeAll | afterEach | afterAll.

Section Suite.

Context {World RenderResult : Type}.

(** State of a running test: the calls made so far and whatever state
    ([World]) the caller's functions act on. *)
Record ExecState : Type := mkExecState {
  calls : list Call;
  world : World
}.

Definition Exec (A : Type) : Type := Eff ExecState A.

(** A function supplied by the caller, seen through [await]: it changes
    the world and then fulfils or rejects (or throws). *)
Definition Callback (A : Type) : Type := World → World * Completion A.

(** Calling such a function: the call is recorded, then it runs. *)
Definition invoke {A} (c : Call) (f : Callback A) : Exec A :=
  λ st, let (w, r) := f (world st) in
        (mkExecState (calls st ++ [c]) w, r).

(** [await f?.()] *)
Definition awaitOptional (c : Call) (f : option (Callback unit)) : Exec unit :=
  match f with
  | Some g => invoke c g
  | None => ret tt
  end.

(** [expect(fn).not.toThrow()]: runs [fn]; an exception from it becomes an
    assertion failure. *)
Definition expect_not_toThrow {A} (fn : Exec A) : Exec unit :=
  λ st, match fn st with
        | (st', Return _) => (st', Return tt)
        | (st', Throw e) => (st', Throw (AssertionError_notToThrow e))
        end.

(** [act(cb)] runs a synchronous [cb] at once and passes on what it
    throws. *)
Definition act {A} (cb : Exec A) : Exec A := cb.

(** A test registered with the framework, and a grouping block. *)
Record RegisteredTest : Type := mkTest {
  test_name : string;
  test_fn : Exec unit
}.

Record Suite : Type := mkSuite {
  suite_fn : SuiteFn;
  suite_name : string;
  suite_lifecycle : list (LifecycleKind * nat);
  suite_tests : list RegisteredTest
}.

(** [test(name, fn)] inside a block's body. *)
Definition test (name : string) (fn : Exec unit) : Eff Suite unit :=
  λ s, (mkSuite (suite_fn s) (suite_name s) (suite_lifecycle s)
                (suite_tests s ++ [mkTest name fn]),
        Return tt).

(** [insideSuite()]: by its documentation ("Include any beforeEach,
    beforeAll, afterEach, afterAll in this") it acts on the block's
    lifecycle hooks. *)
Definition InsideSuite : Type :=
  list (LifecycleKind * nat) → list (LifecycleKind * nat).

Definition callInsideSuite (f : InsideSuite) : Eff Suite unit :=
  λ s, (mkSuite (suite_fn s) (suite_name s) (f (suite_lifecycle s))
                (suite_tests s),
        Return tt).

(** [suiteFn(name, body)]: the block is registered and its body runs
    synchronously; an exception from the body escapes the call, and
    whatever had been registered stays registered. *)
Definition callSuiteFn (f : SuiteFn) (name : string) (body : Eff Suite unit)
    : Eff (list Suite) unit :=
  λ fw, let (s, r) := body (mkSuite f name [] []) in (fw ++ [s], r).

(* ===================================================================== *)
(** ** [componentTestSuite] *)
(* ===================================================================== *)

Record Options : Type := mkOptions {
  suiteFn : option SuiteFn;
  insideSuite : option InsideSuite;
  testTitle : string;
  Wrapper : option ElementType;
  renderFunction : Element → Callback RenderResult
}.

(** One entry of the test list. [Component = None]: the key is absent. *)
Record TestCase : Type := mkTestCase {
  testTitleSuffix : option string;
  beforeRender : option (Callback unit);
  afterRender : option (Callback unit);
  Component : option Element
}.

(** The literal [{}]. *)
Definition emptyTestCase : TestCase := mkTestCase None None None None.

(** ['Component' in maybeComponent ? maybeComponent.Component : Component] *)
Definition thisTestComponent (MainComponent : Element) (t : TestCase) : Element :=
  match Component t with
  | Some c => c
  | None => MainComponent
  end.

(** [testTitle + (testTitleSuffix ? ` - ${testTitleSuffix}` : '')] *)
Definition registeredTitle (options : Options) (t : TestCase) : string :=
  testTitle options +:+
  (if str_truthy (testTitleSuffix t)
   then " - " +:+ default "" (testTitleSuffix t)
   else "").

Definition mismatchMessage (componentName : string) : string :=
  "all tests must be of same component type (" +:+ componentName +:+ ")".

(** The callback handed to [test]:
    <<
    async () => {
      await beforeRender?.()
      await act(() =>
        expect(() =>
          renderFunction(<Wrapper>{ThisTestComponent}</Wrapper>)
        ).not.toThrow())
      await afterRender?.()
    }
    >>
    with [Wrapper = React.Fragment] when the option is left out. *)
Definition testCallback (options : Options) (t : TestCase)
    (ThisTestComponent : Element) : Exec unit :=
  let ui := createElement (default Fragment (Wrapper options)) ThisTestComponent in
  awaitOptional CalledBeforeRender (beforeRender t) ;;
  act (expect_not_toThrow
         (invoke (CalledRender ui) (renderFunction options ui))) ;;
  awaitOptional CalledAfterRender (afterRender t).

(** One iteration of the loop over the tests. *)
Definition registerTest (MainComponent : Element) (componentName : string)
    (options : Options) (t : TestCase) : Eff Suite unit :=
  let ThisTestComponent := thisTestComponent MainComponent t in
  thisName <~ liftC (getComponentName ThisTestComponent) ;;
  (if negb (String.eqb thisName componentName)
   then throw (Error (mismatchMessage componentName))
   else ret tt) ;;
  test (registeredTitle options t) (testCallback options t ThisTestComponent).

(** [testsArg?.length ? testsArg : [{}]] *)
Definition effectiveTests (testsArg : list TestCase) : list TestCase :=
  if negb (length testsArg =? 0)%nat then testsArg else [emptyTestCase].

Definition componentTestSuite (MainComponent : Element) (options : Options)
    (testsArg : list TestCase) : Eff (list Suite) unit :=
  componentName <~ liftC (getComponentName MainComponent) ;;
  let tests := effectiveTests testsArg in
  callSuiteFn (default describe (suiteFn options)) componentName
    (match insideSuite options with
     | Some f => callInsideSuite f
     | None => ret tt
     end ;;
     forOf tests (registerTest MainComponent componentName options)).

End Suite.

Arguments ExecState : clear implicits.
Arguments RegisteredTest : clear implicits.
Arguments Suite : clear implicits.
Arguments Options : clear implicits.
Arguments TestCase : clear implicits.

(* ===================================================================== *)
(** ** The describe/test spy of the repository's tests *)
(* ===================================================================== *)

(** [spyOnVitestCallers] replaces the global [describe], [it] and [test]
    by functions that record every call as a [SpyTestCall] object. The
    objects are shared: the one pushed on [currentDescribeStack] is the
    one pushed on its parent's [children], so a later push to its
    [children] is seen through both. They are therefore kept in a store,
    [spyObjects], and referred to by their index in it. [spy_fn] is the
    recorded function object, by reference; [spy_children = None] is an
    object created without a [children] property. *)
Record SpyTestCall : Type := mkSpyTestCall {
  spy_name : string;
  spy_fn : nat;
  spy_children : option (list nat)
}.

Record SpyState : Type := mkSpyState {
  spyObjects : list SpyTestCall;
  currentDescribeStack : list nat
}.

(** An object literal: a new object, referred to by the next index. *)
Definition newObject (o : SpyTestCall) : Eff SpyState nat :=
  λ s, (mkSpyState (spyObjects s ++ [o]) (currentDescribeStack s),
        Return (length (spyObjects s))).

(** [parent?.children?.push(child)]: nothing happens when [parent] has no
    [children]. *)
Definition pushChild (parent child : nat) (objects : list SpyTestCall)
    : list SpyTestCall :=
  alter (λ o, mkSpyTestCall (spy_name o) (spy_fn o)
                (match spy_children o with
                 | Some cs => Some (cs ++ [child])
                 | None => None
                 end))
        parent objects.

(** <<
    if (currentDescribeStack.length > 0) {
      const parent = currentDescribeStack.at(-1)
      parent?.children?.push(call)
    }
    >> *)
Definition attachToParent (call : nat) : Eff SpyState unit :=
  λ s, if (0 <? length (currentDescribeStack s))%nat then
         match last (currentDescribeStack s) with
         | Some parent =>
             (mkSpyState (pushChild parent call (spyObjects s))
                         (currentDescribeStack s),
              Return tt)
         | None => (s, Return tt)
         end
       else (s, Return tt).

(** [currentDescribeStack.push(call)] and [currentDescribeStack.pop()]. *)
Definition pushStack (call : nat) : Eff SpyState unit :=
  λ s, (mkSpyState (spyObjects s) (currentDescribeStack s ++ [call]), Return tt).

Definition popStack : Eff SpyState unit :=
  λ s, (mkSpyState (spyObjects s) (removelast (currentDescribeStack s)), Return tt).

(** The spy installed as [describe]:
    <<
    const describeCall = { name, fn, children: [] }
    if (currentDescribeStack.length > 0) { ... push to the parent ... }
    currentDescribeStack.push(describeCall)
    fn()
    currentDescribeStack.pop()
    >>
    [fnRef] is the function object that is recorded, [fn] what calling
    it does. *)
Definition spyDescribe (name : string) (fnRef : nat) (fn : Eff SpyState unit)
    : Eff SpyState unit :=
  describeCall <~ newObject (mkSpyTestCall name fnRef (Some [])) ;;
  attachToParent describeCall ;;
  pushStack describeCall ;;
  fn ;;
  popStack.

(** The spy installed as [it] and [test]:
    <<
    const itCall = { name, fn }
    if (currentDescribeStack.length > 0) { ... push to the parent ... }
    fn()
    >> *)
Definition runTest (name : string) (fnRef : nat) (fn : Eff SpyState unit)
    : Eff SpyState unit :=
  itCall <~ newObject (mkSpyTestCall name fnRef None) ;;
  attachToParent itCall ;;
  fn.

(* ===================================================================== *)
(** ** Vocabulary of the properties *)
(* ===================================================================== *)

(** The resolution order as the specification words it: the three places
    a name is looked for, and the first of them that holds a non-empty
    string. *)
Definition nameCandidates (c : Element) : list (option string) :=
  [type_name (type c); type_displayName (type c); displayName c].

Definition firstNonEmpty (l : list (option string)) : option string :=
  head (filter (λ s, s ≠ "") (omap id l)).

(** The title as the specification words it. *)
Definition titleOf (baseTitle : string) (titleSuffix : option string) : string :=
  match titleSuffix with
  | None | Some "" => baseTitle
  | Some suffix => baseTitle +:+ " - " +:+ suffix
  end.

(** What calling an optional hook does to the world, and the call it
    leaves in the record. *)
Definition runOptional {World} (f : option (Callback (World := World) unit))
    (w : World) : World * Completion unit :=
  match f with
  | Some g => g w
  | None => (w, Return tt)
  end.

Definition callOf {A} (c : Call) (f : option A) : list Call :=
  match f with
  | Some _ => [c]
  | None => []
  end.

(** The elements handed to the render function, in call order. *)
Definition renderCalls (l : list Call) : list Element :=
  omap (λ c, match c with CalledRender ui => Some ui | _ => None end) l.

(** The element a test renders. *)
Definition renderedElement {World RenderResult}
    (options : Options World RenderResult) (subject : Element) : Element :=
  createElement (default Fragment (Wrapper options)) subject.

Section Vocabulary.

Context {World RenderResult : Type}.

Implicit Types (s : Suite World) (t : TestCase World).
Implicit Types (ts testsArg : list (TestCase World)).
Implicit Types (options : Options World RenderResult).
Implicit Types (fw : list (Suite World)).
Implicit Types (MainComponent : Element) (componentName : string).

(** What one test entry registers, and a block with more tests added. *)
Definition registrationOf MainComponent options t : RegisteredTest World :=
  mkTest (registeredTitle options t)
         (testCallback options t (thisTestComponent MainComponent t)).

Definition addTests s (l : list (RegisteredTest World)) : Suite World :=
  mkSuite (suite_fn s) (suite_name s) (suite_lifecycle s) (suite_tests s ++ l).

(** The block a call opens, before any test is added to it. *)
Definition openedSuite componentName options : Suite World :=
  mkSuite (default describe (suiteFn options)) componentName
          (match insideSuite options with Some f => f [] | None => [] end) [].

Definition resolvesTo MainComponent componentName t : Prop :=
  getComponentName (thisTestComponent MainComponent t) = Return componentName.

(** The error, if any, that stops the loop at entry [t]. *)
Definition caseError MainComponent componentName t : option JsError :=
  match getComponentName (thisTestComponent MainComponent t) with
  | Return n =>
      if String.eqb n componentName then None
      else Some (Error (mismatchMessage componentName))
  | Throw e => Some e
  end.

(** Index and error of the first entry that stops the loop. *)
Fixpoint firstFailure MainComponent componentName ts : option (nat * JsError) :=
  match ts with
  | [] => None
  | t :: rest =>
      match caseError MainComponent componentName t with
      | Some e => Some (0, e)
      | None =>
          match firstFailure MainComponent componentName rest with
          | Some (i, e) => Some (S i, e)
          | None => None
          end
      end
  end.

(** The first entry that does not resolve to [componentName] is entry [i],
    and it resolves to another name. *)
Definition firstOffenderNamedDifferently
    MainComponent componentName testsArg (i : nat) : Prop :=
  ∃ t other, testsArg !! i = Some t
    ∧ getComponentName (thisTestComponent MainComponent t) = Return other
    ∧ other ≠ componentName
    ∧ Forall (resolvesTo MainComponent componentName) (take i testsArg).

(** *** The claims that fail, as they are worded *)

(** Some entry's component resolves to a name other than
    [componentName]. *)
Definition someEntryNamedDifferently MainComponent componentName testsArg : Prop :=
  ∃ t other, t ∈ testsArg
    ∧ getComponentName (thisTestComponent MainComponent t) = Return other
    ∧ other ≠ componentName.

(** C2, as the claim words it: the mismatch error is raised exactly when
    some entry's component is named differently. *)
Definition mismatch_iff_some_entry_differs
    MainComponent componentName options testsArg fw : Prop :=
  snd (componentTestSuite MainComponent options testsArg fw)
    = Throw (Error (mismatchMessage componentName))
  ↔ someEntryNamedDifferently MainComponent componentName testsArg.

End Vocabulary.

(** C3, as the claim words its third shape: any single argument that is
    not a list comes back as [overallOptions]. *)
Definition single_nonlist_is_options (arg : JsVal) : Prop :=
  isArray arg = false →
  resolveTestSuiteArgs [arg] = mkResolved arg emptyArray.

(** The suffix as the title sees it: an empty suffix counts as none. *)
Definition effectiveSuffix (suffix : option string) : option string :=
  if str_truthy suffix then suffix else None.

(** An entry's own component, if it has one, is an element of the same
    component as [MainComponent]: same type, same display name; props and
    children are free. *)
Definition sameComponentAs {World} (MainComponent : Element)
    (t : TestCase World) : Prop :=
  ∀ c, Component t = Some c →
    type c = type MainComponent ∧ displayName c = displayName MainComponent.

(** A computation that, when it returns, leaves [currentDescribeStack] as
    it found it; and one that leaves the whole spy state alone. *)
Definition stackNeutral (c : Eff SpyState unit) : Prop :=
  ∀ s s', c s = (s', Return tt) → currentDescribeStack s' = currentDescribeStack s.

Definition spyInert (c : Eff SpyState unit) : Prop :=
  ∀ s, fst (c s) = s.



(** The state in which the body of a [describe] starts. *)
Definition describeEntered (name : string) (fnRef : nat) (s : SpyState) : SpyState :=
  fst ((describeCall <~ newObject (mkSpyTestCall name fnRef (Some [])) ;;
        attachToParent describeCall ;;
        pushStack describeCall) s).

(* ===================================================================== *)
(** ** Concrete inputs *)
(* ===================================================================== *)

Definition someOptions : JsVal := VObj {[ "insideSuite" := VFun 0 ]}.

Definition someTestList : list JsVal :=
  [VObj {[ "testTitleSuffix" := VStr "test 1" ]}].

Definition customEntries : list (gmap string JsVal) :=
  [ {[ "testTitleSuffix" := VStr "test 1"; "customProp" := VStr "value1" ]};
    {[ "testTitleSuffix" := VStr "test 2"; "customProp" := VStr "value2" ]} ].

Definition addAfterRender : gmap string JsVal → gmap string JsVal :=
  λ _, {[ "afterRender" := VFun 1 ]}.

(** Example components and options, over a world with nothing in it. *)
Definition Widget : Element :=
  mkElement (FunctionComponent 0 "Widget" None) [] [] None.
Definition WidgetWithProp : Element :=
  mkElement (FunctionComponent 0 "Widget" None) [("customProp", "1")] [] None.
Definition Gadget : Element :=
  mkElement (FunctionComponent 1 "Gadget" None) [] [] None.
Definition Memoized : Element :=
  mkElement (ExoticComponent 2 None) [] [] None.
Definition TestWrapper : ElementType := FunctionComponent 3 "TestWrapper" None.

Definition renderOk : Element → Callback (World := unit) unit :=
  λ _ w, (w, Return tt).
Definition renderThrows : Element → Callback (World := unit) unit :=
  λ _ w, (w, Throw (Error "render failed")).
Definition hookOk : Callback (World := unit) unit := λ w, (w, Return tt).
Definition hookRejects : Callback (World := unit) unit :=
  λ w, (w, Throw (Error "setup failed")).

Definition plainOptions : Options unit unit :=
  mkOptions None None "renders the component" None renderOk.
Definition wrappedOptions : Options unit unit :=
  mkOptions None None "renders the component" (Some TestWrapper) renderOk.

Definition entry (suffix : option string) (c : option Element) : TestCase unit :=
  mkTestCase suffix None None c.

Definition twoEntries : list (TestCase unit) :=
  [entry (Some "a") None; entry (Some "b") (Some WidgetWithProp)].

(** Test lists whose third entry names another component. *)
Definition unnamedThenGadget : list (TestCase unit) :=
  [entry (Some "a") None;
   entry (Some "b") (Some Memoized);
   entry (Some "c") (Some Gadget)].

Definition widgetThenGadget : list (TestCase unit) :=
  [entry (Some "a") None;
   entry (Some "b") (Some WidgetWithProp);
   entry (Some "c") (Some Gadget);
   entry (Some "d") (Some Widget)].

Definition hookedOptions : Options unit unit :=
  mkOptions (Some describe_only) (Some (λ l, l ++ [(beforeEach, 7)]))
            "renders the component" (Some TestWrapper) renderThrows.

Definition hookedEntry : TestCase unit :=
  mkTestCase (Some "with setup") (Some hookOk) (Some hookOk) None.

Definition rejectingEntry : TestCase unit :=
  mkTestCase (Some "with failing setup") (Some hookRejects) (Some hookOk)
             (Some WidgetWithProp).

(* ===================================================================== *)
(** * Properties *)
(* ===================================================================== *)

(** ** Argument resolution *)

Lemma index_cons_0 (v : JsVal) (rest : list JsVal) : index (v :: rest) 0 = v.
Proof. reflexivity. Qed.

Lemma resolve_falsy (args : list JsVal) :
  truthy (index args 0) = false →
  resolveTestSuiteArgs args = mkResolved emptyObject emptyArray.
Proof. intros H. unfold resolveTestSuiteArgs. by rewrite H. Qed.

Lemma resolve_array (l rest : list JsVal) :
  resolveTestSuiteArgs (VArr l :: rest) = mkResolved emptyObject (VArr l).
Proof. reflexivity. Qed.

Lemma resolve_options (first : JsVal) (rest : list JsVal) :
  truthy first = true → isArray first = false →
  resolveTestSuiteArgs (first :: rest) =
    mkResolved first (nullish_coalesce (index rest 0) emptyArray).
Proof.
  intros Ht Ha. unfold resolveTestSuiteArgs.
  rewrite index_cons_0, Ht, Ha. reflexivity.
Qed.

(** C3 (counterexample): the single argument [undefined] is not a list,
    yet [overallOptions] comes back as the empty object, not as that
    argument: the [!first] guard runs before the shape test. *)
Lemma resolveTestSuiteArgs_single_undefined :
  resolveTestSuiteArgs [VUndefined] = mkResolved emptyObject emptyArray
  ∧ ¬ single_nonlist_is_options VUndefined.
Proof.
  split; [reflexivity |].
  intros H. specialize (H eq_refl). discriminate H.
Qed.

(** C3 (amended): no arguments give [{ {}, [] }]; a single list gives
    [{ {}, list }]; a single non-list argument gives [{ arg, [] }] when it
    is truthy, as every options object is, and [{ {}, [] }] when it is
    falsy; truthy non-list options followed by a list give
    [{ options, list }], and followed by [undefined] give
    [{ options, [] }]. *)
Theorem resolveTestSuiteArgs_shapes (options falsy : JsVal) (list_ : list JsVal) :
  truthy options = true → isArray options = false → truthy falsy = false →
  resolveTestSuiteArgs [] = mkResolved emptyObject emptyArray
  ∧ resolveTestSuiteArgs [VArr list_] = mkResolved emptyObject (VArr list_)
  ∧ resolveTestSuiteArgs [options] = mkResolved options emptyArray
  ∧ resolveTestSuiteArgs [falsy] = mkResolved emptyObject emptyArray
  ∧ resolveTestSuiteArgs [options; VArr list_] = mkResolved options (VArr list_)
  ∧ resolveTestSuiteArgs [options; VUndefined] = mkResolved options emptyArray.
Proof.
  intros Ht Ha Hf.
  split; [reflexivity |]. split; [apply resolve_array |].
  split; [by rewrite resolve_options |].
  split; [by apply resolve_falsy |].
  split; by rewrite resolve_options.
Qed.

Lemma resolveTestSuiteArgs_shapes_witness :
  resolveTestSuiteArgs [someOptions] = mkResolved someOptions emptyArray
  ∧ resolveTestSuiteArgs [VNull] = mkResolved emptyObject emptyArray
  ∧ resolveTestSuiteArgs [someOptions; VArr someTestList]
    = mkResolved someOptions (VArr someTestList).
Proof.
  destruct (resolveTestSuiteArgs_shapes someOptions VNull someTestList)
    as (_ & _ & H1 & H2 & H3 & _); [reflexivity .. |].
  exact (conj H1 (conj H2 H3)).
Defined.

(** C10: when the first element of the argument array is falsy (or there
    is none, so that it reads as [undefined]), the result is
    [{ overallOptions: {}, tests: [] }] whatever follows; a list passed
    after [undefined] is dropped. *)
Theorem resolveTestSuiteArgs_falsy_first (args : list JsVal) :
  truthy (index args 0) = false →
  resolveTestSuiteArgs args = mkResolved emptyObject emptyArray
  ∧ (∀ someList, resolveTestSuiteArgs [VUndefined; VArr someList]
                 = mkResolved emptyObject emptyArray)
  ∧ (∀ someList, someList ≠ [] →
       tests (resolveTestSuiteArgs [VUndefined; VArr someList]) ≠ VArr someList).
Proof.
  intros Hf. split; [by apply resolve_falsy |].
  split; intros someList; [reflexivity |].
  intros Hne H. cbn in H. injection H as H. by apply Hne.
Qed.

Lemma resolveTestSuiteArgs_falsy_first_witness :
  resolveTestSuiteArgs [VStr ""; VArr someTestList]
    = mkResolved emptyObject emptyArray.
Proof.
  apply (resolveTestSuiteArgs_falsy_first [VStr ""; VArr someTestList]).
  reflexivity.
Defined.

(** ** List mapping *)

Lemma lookup_spread2 {V} (a b : gmap string V) (k : string) :
  spread2 a b !! k = match b !! k with Some v => Some v | None => a !! k end.
Proof.
  unfold spread2. rewrite lookup_union.
  destruct (b !! k), (a !! k); reflexivity.
Qed.

(** C8: [mapTestList(undefined, f)] is [undefined]; on a list the result
    has the same length and order, each entry carrying the fields [f]
    returns for it and, for every other key, the original entry's field;
    the empty list maps to the empty list. *)
Theorem mapTestList_merges {V} (f : gmap string V → gmap string V) :
  mapTestList None f = None
  ∧ mapTestList (Some []) f = Some []
  ∧ ∀ l : list (gmap string V), ∃ l' : list (gmap string V),
      mapTestList (Some l) f = Some l'
      ∧ length l' = length l
      ∧ ∀ (i : nat) (t : gmap string V), l !! i = Some t →
          ∃ t' : gmap string V, l' !! i = Some t'
            ∧ (∀ k v, f t !! k = Some v → t' !! k = Some v)
            ∧ (∀ k, f t !! k = None → t' !! k = t !! k).
Proof.
  split; [reflexivity |]. split; [reflexivity |].
  intros l. eexists. split; [reflexivity |]. split.
  - apply length_map.
  - intros i t Hi. eexists. split.
    + rewrite list_lookup_fmap, Hi. reflexivity.
    + split; intros k; [intros v|]; intros Hk;
        rewrite lookup_spread2, Hk; reflexivity.
Qed.

(** ** Component naming *)

Lemma str_truthy_Some (s : string) : str_truthy (Some s) = bool_decide (s ≠ "").
Proof.
  unfold str_truthy. destruct (String.eqb_spec s "") as [-> | Hne].
  - reflexivity.
  - by rewrite bool_decide_eq_true_2.
Qed.

Lemma firstNonEmpty_cons (o : option string) (l : list (option string)) :
  firstNonEmpty (o :: l) = if str_truthy o then o else firstNonEmpty l.
Proof.
  unfold firstNonEmpty. destruct o as [s|]; [| reflexivity].
  rewrite str_truthy_Some.
  change (omap id (Some s :: l)) with (s :: omap id l).
  rewrite filter_cons.
  destruct (decide (s ≠ "")) as [Hs | Hs].
  - by rewrite bool_decide_eq_true_2.
  - by rewrite bool_decide_eq_false_2.
Qed.

Lemma firstNonEmpty_truthy (l : list (option string)) (n : string) :
  firstNonEmpty l = Some n → n ≠ "".
Proof.
  unfold firstNonEmpty. intros H. apply head_Some_elem_of in H.
  by apply list_elem_of_filter in H as [H _].
Qed.

Lemma jsOr_firstNonEmpty (a b c : option string) :
  let name := jsOr (jsOr a b) c in
  str_truthy name = bool_decide (is_Some (firstNonEmpty [a; b; c]))
  ∧ (str_truthy name = true → name = firstNonEmpty [a; b; c]).
Proof.
  cbn. rewrite !firstNonEmpty_cons. unfold jsOr.
  destruct (str_truthy a) eqn:Ha; cbn.
  - rewrite Ha. destruct a; [| discriminate Ha].
    split; [by rewrite bool_decide_eq_true_2 | done].
  - destruct (str_truthy b) eqn:Hb; cbn.
    + rewrite Hb. destruct b; [| discriminate Hb].
      split; [by rewrite bool_decide_eq_true_2 | done].
    + destruct (str_truthy c) eqn:Hc.
      * destruct c; [| discriminate Hc].
        split; [by rewrite bool_decide_eq_true_2 | done].
      * split; [| discriminate].
        rewrite bool_decide_eq_false_2; [done |].
        intros [x Hx]. discriminate Hx.
Qed.

Lemma getComponentName_firstNonEmpty (c : Element) :
  getComponentName c =
    match firstNonEmpty (nameCandidates c) with
    | Some n => Return n
    | None => Throw (Error noNameMessage)
    end.
Proof.
  unfold getComponentName, nameCandidates.
  destruct (jsOr_firstNonEmpty (type_name (type c))
              (type_displayName (type c)) (displayName c)) as [Hb Hv].
  cbv zeta in *.
  destruct (firstNonEmpty _) as [n|] eqn:Hn.
  - rewrite bool_decide_eq_true_2 in Hb by eauto.
    rewrite Hb, (Hv Hb). reflexivity.
  - rewrite bool_decide_eq_false_2 in Hb; [by rewrite Hb |].
    intros [x Hx]. discriminate Hx.
Qed.

(** C6: [getComponentName] returns the first non-empty string among the
    name of the element's type, the display name of the type and the
    display name of the element itself, in that order; when there is none
    it throws an error whose message says that the component has no name
    and tells the caller to set [displayName]. *)
Theorem getComponentName_resolution (c : Element) :
  getComponentName c =
    match firstNonEmpty (nameCandidates c) with
    | Some n => Return n
    | None => Throw (Error noNameMessage)
    end
  ∧ (∀ n, getComponentName c = Return n → n ≠ "")
  ∧ String.prefix "Component has no name." noNameMessage = true
  ∧ is_Some (String.index 0 "set displayName on the component" noNameMessage).
Proof.
  split; [apply getComponentName_firstNonEmpty |]. split.
  - intros n Hn. rewrite getComponentName_firstNonEmpty in Hn.
    destruct (firstNonEmpty _) as [m|] eqn:Hm; [| discriminate Hn].
    injection Hn as <-. by eapply firstNonEmpty_truthy.
  - split; [reflexivity |]. vm_compute. eauto.
Qed.

Lemma getComponentName_throws (c : Element) (e : JsError) :
  getComponentName c = Throw e → e = Error noNameMessage.
Proof.
  unfold getComponentName. destruct (negb _); [| discriminate].
  by intros [= <-].
Qed.

(** ** Suite registration *)

Lemma bind_Return {S A B} (c : Eff S A) (k : A → Eff S B) (s s' : S) (a : A) :
  c s = (s', Return a) → bind c k s = k a s'.
Proof. intros H. unfold bind. by rewrite H. Qed.

Lemma bind_Throw {S A B} (c : Eff S A) (k : A → Eff S B) (s s' : S) (e : JsError) :
  c s = (s', Throw e) → bind c k s = (s', Throw e).
Proof. intros H. unfold bind. by rewrite H. Qed.

Lemma mismatch_is_not_noName (componentName : string) :
  Error noNameMessage ≠ Error (mismatchMessage componentName).
Proof. unfold noNameMessage, mismatchMessage. cbn. discriminate. Qed.

Section SuiteProperties.

Context {World RenderResult : Type}.

Implicit Types (s : Suite World) (t : TestCase World).
Implicit Types (ts testsArg : list (TestCase World)).
Implicit Types (options : Options World RenderResult).
Implicit Types (MainComponent : Element) (componentName : string).

Lemma addTests_nil s : addTests s [] = s.
Proof. destruct s. unfold addTests. cbn. by rewrite app_nil_r. Qed.

Lemma addTests_app s (l1 l2 : list (RegisteredTest World)) :
  addTests (addTests s l1) l2 = addTests s (l1 ++ l2).
Proof. unfold addTests. cbn. by rewrite app_assoc. Qed.

Lemma caseError_None MainComponent componentName t :
  caseError MainComponent componentName t = None
  ↔ resolvesTo MainComponent componentName t.
Proof.
  unfold caseError, resolvesTo.
  destruct (getComponentName _) as [n | e]; [| split; discriminate].
  destruct (String.eqb_spec n componentName) as [-> | Hne].
  - split; reflexivity.
  - split; [discriminate | intros [= ->]; contradiction].
Qed.

Lemma caseError_mismatch MainComponent componentName t :
  caseError MainComponent componentName t = Some (Error (mismatchMessage componentName))
  ↔ ∃ other, getComponentName (thisTestComponent MainComponent t) = Return other
             ∧ other ≠ componentName.
Proof.
  unfold caseError.
  destruct (getComponentName _) as [n | e] eqn:Hg.
  - destruct (String.eqb_spec n componentName) as [-> | Hne].
    + split; [discriminate | intros (other & [= <-] & Hne); contradiction].
    + split; [eauto | reflexivity].
  - apply getComponentName_throws in Hg as ->. split.
    + intros H. exfalso.
      apply (mismatch_is_not_noName componentName). congruence.
    + intros (other & [=] & _).
Qed.

Lemma registerTest_spec MainComponent componentName options t s :
  registerTest MainComponent componentName options t s =
    match caseError MainComponent componentName t with
    | None => (addTests s [registrationOf MainComponent options t], Return tt)
    | Some e => (s, Throw e)
    end.
Proof.
  unfold registerTest, caseError, bind, liftC.
  destruct (getComponentName _) as [n | e]; [| reflexivity].
  destruct (String.eqb n componentName); reflexivity.
Qed.

Lemma forOf_registerTest MainComponent componentName options ts s :
  forOf ts (registerTest MainComponent componentName options) s =
    match firstFailure MainComponent componentName ts with
    | None =>
        (addTests s (map (registrationOf MainComponent options) ts), Return tt)
    | Some (i, e) =>
        (addTests s (map (registrationOf MainComponent options) (take i ts)),
         Throw e)
    end.
Proof.
  revert s. induction ts as [| t rest IH]; intros s; cbn [forOf firstFailure].
  - by rewrite addTests_nil.
  - unfold bind at 1. rewrite registerTest_spec.
    destruct (caseError _ _ t) as [e |].
    + by rewrite addTests_nil.
    + rewrite IH.
      destruct (firstFailure _ _ rest) as [[i e] |];
        by rewrite addTests_app.
Qed.

Lemma firstFailure_None MainComponent componentName ts :
  firstFailure MainComponent componentName ts = None
  ↔ Forall (resolvesTo MainComponent componentName) ts.
Proof.
  induction ts as [| t rest IH]; cbn.
  - split; [constructor | reflexivity].
  - rewrite Forall_cons, <- caseError_None, <- IH.
    destruct (caseError _ _ t); [split; [discriminate | intros [[=] _]] |].
    destruct (firstFailure _ _ rest) as [[i e] |].
    + split; [discriminate | intros [_ [=]]].
    + split; done.
Qed.

Lemma firstFailure_Some MainComponent componentName ts (i : nat) (e : JsError) :
  firstFailure MainComponent componentName ts = Some (i, e)
  ↔ ∃ t, ts !! i = Some t
         ∧ caseError MainComponent componentName t = Some e
         ∧ Forall (resolvesTo MainComponent componentName) (take i ts).
Proof.
  revert i. induction ts as [| t rest IH]; intros i; cbn [firstFailure].
  - split; [discriminate | intros (t & [=] & _)].
  - destruct (caseError _ _ t) as [e' |] eqn:Ht.
    + split.
      * intros [= <- <-]. exists t. split; [done |]. split; [done | constructor].
      * intros (t' & Hi & He & Hall). destruct i as [| i].
        -- injection Hi as <-. congruence.
        -- cbn in Hall. apply Forall_cons in Hall as [Hall _].
           apply caseError_None in Hall. congruence.
    + destruct i as [| i].
      * split.
        -- destruct (firstFailure _ _ rest) as [[j e'] |]; discriminate.
        -- intros (t' & [= <-] & He & _). congruence.
      * specialize (IH i). split.
        -- destruct (firstFailure _ _ rest) as [[j e'] |]; [| discriminate].
           intros [= -> ->]. destruct IH as [IH _].
           destruct (IH eq_refl) as (t' & Hi & He & Hall).
           exists t'. split; [done |]. split; [done |].
           cbn. constructor; [by apply caseError_None | done].
        -- intros (t' & Hi & He & Hall). cbn in Hi, Hall.
           apply Forall_cons in Hall as [_ Hall].
           destruct IH as [_ IH]. rewrite IH; [done | eauto].
Qed.

Lemma firstFailure_lt MainComponent componentName ts (i : nat) (e : JsError) :
  firstFailure MainComponent componentName ts = Some (i, e) → i < length ts.
Proof.
  intros H. apply firstFailure_Some in H as (t & Hi & _).
  by eapply lookup_lt_Some.
Qed.

Lemma effectiveTests_nonempty testsArg :
  testsArg ≠ [] → effectiveTests testsArg = testsArg.
Proof. destruct testsArg; [done | reflexivity]. Qed.

Lemma effectiveTests_length testsArg :
  length (effectiveTests testsArg) = max 1 (length testsArg).
Proof. destruct testsArg as [| t [| t' rest]]; reflexivity. Qed.

Lemma firstFailure_effective MainComponent componentName testsArg :
  getComponentName MainComponent = Return componentName →
  firstFailure MainComponent componentName (effectiveTests testsArg)
  = firstFailure MainComponent componentName testsArg.
Proof.
  intros Hname. destruct testsArg as [| t rest]; [| reflexivity].
  cbn. unfold caseError, thisTestComponent. cbn.
  by rewrite Hname, String.eqb_refl.
Qed.

(** What a call with a nameable component does to the framework. *)
Lemma componentTestSuite_spec MainComponent componentName options testsArg
    (fw : list (Suite World)) :
  getComponentName MainComponent = Return componentName →
  componentTestSuite MainComponent options testsArg fw =
    let ts := effectiveTests testsArg in
    match firstFailure MainComponent componentName ts with
    | None =>
        (fw ++ [addTests (openedSuite componentName options)
                         (map (registrationOf MainComponent options) ts)],
         Return tt)
    | Some (i, e) =>
        (fw ++ [addTests (openedSuite componentName options)
                         (map (registrationOf MainComponent options) (take i ts))],
         Throw e)
    end.
Proof.
  intros Hname. unfold componentTestSuite, bind at 1, liftC.
  rewrite Hname. unfold callSuiteFn, bind at 1.
  cbv zeta.
  destruct (insideSuite options) as [f |] eqn:Hf;
    unfold openedSuite; rewrite Hf; cbn [callInsideSuite ret];
    rewrite forOf_registerTest;
    by destruct (firstFailure _ _ _) as [[i e] |].
Qed.

(** With an unnameable component the call throws before touching the
    framework. *)
Lemma componentTestSuite_unnamed MainComponent options testsArg
    (fw : list (Suite World)) (e : JsError) :
  getComponentName MainComponent = Throw e →
  componentTestSuite MainComponent options testsArg fw = (fw, Throw e).
Proof.
  intros Hname. unfold componentTestSuite, bind, liftC. by rewrite Hname.
Qed.

End SuiteProperties.

Lemma append_empty_r (s : string) : s +:+ "" = s.
Proof.
  induction s as [| a s IH]; [reflexivity |].
  change (String a s +:+ "") with (String a (s +:+ "")). by rewrite IH.
Qed.

Section SuiteClaims.

Context {World RenderResult : Type}.

Implicit Types (t : TestCase World) (testsArg : list (TestCase World)).
Implicit Types (options : Options World RenderResult).
Implicit Types (fw : list (Suite World)).
Implicit Types (MainComponent : Element) (componentName : string).

Lemma registeredTitle_titleOf options t :
  registeredTitle options t = titleOf (testTitle options) (testTitleSuffix t).
Proof.
  unfold registeredTitle, titleOf.
  destruct (testTitleSuffix t) as [[| a s] |]; cbn;
    [apply append_empty_r | reflexivity | apply append_empty_r].
Qed.

(** The block a call registers always holds the registrations of an
    initial segment of the effective test list, in order. *)
Lemma componentTestSuite_prefix MainComponent componentName options testsArg fw :
  getComponentName MainComponent = Return componentName →
  ∃ k, (k ≤ length (effectiveTests testsArg))%nat
    ∧ fst (componentTestSuite MainComponent options testsArg fw) =
        fw ++ [addTests (openedSuite componentName options)
                 (map (registrationOf MainComponent options)
                      (take k (effectiveTests testsArg)))]
    ∧ (Forall (resolvesTo MainComponent componentName) testsArg →
        k = length (effectiveTests testsArg)
        ∧ snd (componentTestSuite MainComponent options testsArg fw) = Return tt).
Proof.
  intros Hname. rewrite (componentTestSuite_spec _ componentName) by done.
  cbv zeta. rewrite firstFailure_effective by done.
  destruct (firstFailure _ _ testsArg) as [[i e] |] eqn:Hff.
  - exists i. split; [| split; [reflexivity |]].
    + apply firstFailure_lt in Hff. rewrite effectiveTests_length. lia.
    + intros Hall. apply firstFailure_None in Hall. congruence.
  - exists (length (effectiveTests testsArg)).
    split; [done |]. by rewrite firstn_all.
Qed.

(** C1: with a nameable component and test entries that all resolve to
    its name, a call registers exactly one block, named after the
    component, holding max(1, number of entries) tests; with no entries
    it holds exactly one test, titled with the base [testTitle]. *)
Theorem componentTestSuite_registers_one_suite
    MainComponent componentName options testsArg fw :
  getComponentName MainComponent = Return componentName →
  Forall (resolvesTo MainComponent componentName) testsArg →
  ∃ suite,
    componentTestSuite MainComponent options testsArg fw = (fw ++ [suite], Return tt)
    ∧ suite_name suite = componentName
    ∧ length (suite_tests suite) = max 1 (length testsArg)
    ∧ (testsArg = [] → map test_name (suite_tests suite) = [testTitle options]).
Proof.
  intros Hname Hall.
  rewrite (componentTestSuite_spec _ componentName) by done. cbv zeta.
  rewrite firstFailure_effective by done.
  apply firstFailure_None in Hall. rewrite Hall.
  eexists. split; [reflexivity |]. split; [reflexivity |]. split.
  - cbn. by rewrite length_map, effectiveTests_length.
  - intros ->. cbn -[registeredTitle].
    by rewrite registeredTitle_titleOf.
Qed.

(** C5: every registered test is titled [testTitle] alone when its entry
    has no suffix or an empty one, and [testTitle + " - " + suffix]
    otherwise; the i-th registered test comes from the i-th entry, so the
    titles follow the order of the supplied list. *)
Theorem registered_titles_follow_entries
    MainComponent componentName options testsArg fw :
  getComponentName MainComponent = Return componentName →
  ∃ suite,
    fst (componentTestSuite MainComponent options testsArg fw) = fw ++ [suite]
    ∧ (∀ i rt, suite_tests suite !! i = Some rt →
         ∃ t, effectiveTests testsArg !! i = Some t
              ∧ test_name rt = titleOf (testTitle options) (testTitleSuffix t))
    ∧ (Forall (resolvesTo MainComponent componentName) testsArg →
         map test_name (suite_tests suite) =
         map (λ t, titleOf (testTitle options) (testTitleSuffix t))
             (effectiveTests testsArg))
    ∧ (testsArg ≠ [] → effectiveTests testsArg = testsArg).
Proof.
  intros Hname.
  destruct (componentTestSuite_prefix MainComponent componentName options
              testsArg fw Hname) as (k & Hk & Hfst & Hall).
  eexists. split; [exact Hfst |]. split; [| split].
  - intros i rt Hi. cbn in Hi.
    rewrite list_lookup_fmap in Hi.
    destruct (take k (effectiveTests testsArg) !! i) as [t |] eqn:Ht;
      [| discriminate Hi].
    injection Hi as <-. exists t. split.
    + rewrite lookup_take_Some in Ht. tauto.
    + apply registeredTitle_titleOf.
  - intros H. destruct (Hall H) as [-> _]. cbn.
    rewrite firstn_all, map_map. apply map_ext. intros t.
    apply registeredTitle_titleOf.
  - apply effectiveTests_nonempty.
Qed.

(** C7: when the component has no resolvable name, the call throws the
    naming error and leaves the framework as it was; since calling
    [suiteFn] always adds a block, [suiteFn] was not called. *)
Theorem unnamed_component_registers_nothing MainComponent options testsArg fw :
  firstNonEmpty (nameCandidates MainComponent) = None →
  componentTestSuite MainComponent options testsArg fw
    = (fw, Throw (Error noNameMessage))
  ∧ ∀ (f : SuiteFn) (name : string) (body : Eff (Suite World) unit),
      fst (callSuiteFn f name body fw) ≠ fw.
Proof.
  intros Hnone. split.
  - apply componentTestSuite_unnamed.
    by rewrite getComponentName_firstNonEmpty, Hnone.
  - intros f name body. unfold callSuiteFn.
    destruct (body _) as [s r]. cbn. intros H.
    apply (f_equal length) in H. rewrite length_app in H. cbn in H. lia.
Qed.

End SuiteClaims.

(** ** Component mismatch *)

Section MismatchClaims.

Context {World RenderResult : Type}.

Implicit Types (t : TestCase World) (testsArg : list (TestCase World)).
Implicit Types (options : Options World RenderResult).
Implicit Types (fw : list (Suite World)).
Implicit Types (MainComponent : Element) (componentName : string).

Lemma firstOffender_firstFailure MainComponent componentName testsArg i :
  firstOffenderNamedDifferently MainComponent componentName testsArg i
  ↔ firstFailure MainComponent componentName testsArg
      = Some (i, Error (mismatchMessage componentName)).
Proof.
  rewrite firstFailure_Some. unfold firstOffenderNamedDifferently. split.
  - intros (t & other & Hi & Hn & Hne & Hall). exists t.
    split; [done |]. split; [| done]. apply caseError_mismatch. eauto.
  - intros (t & Hi & He & Hall).
    apply caseError_mismatch in He as (other & Hn & Hne). eauto 10.
Qed.

(** C2 (amended): with a nameable component, the call throws the mismatch
    error, whose message names the expected component, exactly when some
    entry's component resolves to a different name while every earlier
    entry resolves to the component's name; then the block holds the
    tests of the earlier entries and none for that entry or a later one.
    When every entry resolves to the component's name, whatever element
    it is, nothing is thrown. *)
Theorem mismatch_raised_at_first_offender
    MainComponent componentName options testsArg fw :
  getComponentName MainComponent = Return componentName →
  (snd (componentTestSuite MainComponent options testsArg fw)
     = Throw (Error (mismatchMessage componentName))
   ↔ ∃ i, firstOffenderNamedDifferently MainComponent componentName testsArg i)
  ∧ (∀ i, firstOffenderNamedDifferently MainComponent componentName testsArg i →
       fst (componentTestSuite MainComponent options testsArg fw) =
         fw ++ [addTests (openedSuite componentName options)
                  (map (registrationOf MainComponent options) (take i testsArg))])
  ∧ (Forall (resolvesTo MainComponent componentName) testsArg →
       snd (componentTestSuite MainComponent options testsArg fw) = Return tt)
  ∧ mismatchMessage componentName
      = "all tests must be of same component type (" +:+ componentName +:+ ")".
Proof.
  intros Hname.
  rewrite (componentTestSuite_spec _ componentName) by done. cbv zeta.
  rewrite firstFailure_effective by done.
  split; [| split; [| split; [| reflexivity]]].
  - destruct (firstFailure _ _ testsArg) as [[i e] |] eqn:Hff; cbn; split.
    + intros [= ->]. exists i. by apply firstOffender_firstFailure.
    + intros [j Hj]. apply firstOffender_firstFailure in Hj. congruence.
    + discriminate.
    + intros [j Hj]. apply firstOffender_firstFailure in Hj. congruence.
  - intros i Hi. pose proof Hi as (t & _ & Hlook & _).
    apply firstOffender_firstFailure in Hi. rewrite Hi. cbn.
    rewrite effectiveTests_nonempty; [done |]. by intros ->.
  - intros Hall. apply firstFailure_None in Hall. by rewrite Hall.
Qed.

End MismatchClaims.

(** C2 (counterexample): the third entry's component is named "Gadget",
    not "Widget", yet the call throws the naming error, because the second
    entry's component has no name and is reached first. *)
Lemma unnamed_entry_preempts_mismatch :
  getComponentName Widget = Return "Widget"
  ∧ someEntryNamedDifferently Widget "Widget" unnamedThenGadget
  ∧ snd (componentTestSuite Widget plainOptions unnamedThenGadget [])
      = Throw (Error noNameMessage)
  ∧ ¬ mismatch_iff_some_entry_differs Widget "Widget" plainOptions
        unnamedThenGadget [].
Proof.
  assert (Hsome : someEntryNamedDifferently Widget "Widget" unnamedThenGadget).
  { exists (entry (Some "c") (Some Gadget)), "Gadget".
    split; [| split; [reflexivity | discriminate]].
    apply list_elem_of_lookup. by exists 2. }
  split; [reflexivity |]. split; [exact Hsome |]. split; [reflexivity |].
  intros [_ H]. specialize (H Hsome). vm_compute in H. discriminate H.
Qed.

Lemma mismatch_raised_at_first_offender_witness :
  snd (componentTestSuite Widget plainOptions widgetThenGadget [])
    = Throw (Error "all tests must be of same component type (Widget)")
  ∧ map test_name
      (concat (map suite_tests
         (fst (componentTestSuite Widget plainOptions widgetThenGadget []))))
    = ["renders the component - a"; "renders the component - b"].
Proof.
  destruct (mismatch_raised_at_first_offender Widget "Widget" plainOptions
              widgetThenGadget [] eq_refl) as (Hiff & Hfst & _ & _).
  assert (Hoff : firstOffenderNamedDifferently Widget "Widget" widgetThenGadget 2).
  { exists (entry (Some "c") (Some Gadget)), "Gadget".
    split; [reflexivity |]. split; [reflexivity |]. split; [discriminate |].
    repeat constructor. }
  split.
  - apply Hiff. by exists 2.
  - rewrite (Hfst 2 Hoff). reflexivity.
Defined.

(** ** The per-test protocol *)

Section ProtocolClaims.

Context {World RenderResult : Type}.

Implicit Types (t : TestCase World) (testsArg : list (TestCase World)).
Implicit Types (options : Options World RenderResult).
Implicit Types (fw : list (Suite World)) (st : ExecState World).
Implicit Types (MainComponent subject : Element) (componentName : string).

Lemma awaitOptional_spec (c : Call) (f : option (Callback (World := World) unit)) st :
  awaitOptional c f st =
    (mkExecState (calls st ++ callOf c f) (fst (runOptional f (world st))),
     snd (runOptional f (world st))).
Proof.
  destruct f as [g |]; cbn.
  - unfold invoke. by destruct (g (world st)).
  - destruct st. cbn. by rewrite app_nil_r.
Qed.

Lemma runOptional_Throw (f : option (Callback (World := World) unit))
    (c : Call) (w w1 : World) (e : JsError) :
  runOptional f w = (w1, Throw e) → callOf c f = [c].
Proof. destruct f; [reflexivity | discriminate]. Qed.

Lemma testCallback_unfold options t subject st :
  testCallback options t subject st =
    match awaitOptional CalledBeforeRender (beforeRender t) st with
    | (st1, Return _) =>
        let ui := renderedElement options subject in
        match invoke (CalledRender ui) (renderFunction options ui) st1 with
        | (st2, Return _) => awaitOptional CalledAfterRender (afterRender t) st2
        | (st2, Throw e) => (st2, Throw (AssertionError_notToThrow e))
        end
    | (st1, Throw e) => (st1, Throw e)
    end.
Proof.
  unfold testCallback, bind, act, expect_not_toThrow, renderedElement.
  destruct (awaitOptional _ _ st) as [st1 [[] | e]]; [| reflexivity].
  cbv zeta. by destruct (invoke _ _ st1) as [st2 [r | e]].
Qed.

(** The three ways the callback of a test can go. *)
Lemma testCallback_protocol options t subject st :
  let ui := renderedElement options subject in
  let b := callOf CalledBeforeRender (beforeRender t) in
  let a := callOf CalledAfterRender (afterRender t) in
  (∀ w1 e,
     runOptional (beforeRender t) (world st) = (w1, Throw e) →
     testCallback options t subject st
       = (mkExecState (calls st ++ [CalledBeforeRender]) w1, Throw e))
  ∧ (∀ w1 w2 e,
       runOptional (beforeRender t) (world st) = (w1, Return tt) →
       renderFunction options ui w1 = (w2, Throw e) →
       testCallback options t subject st
         = (mkExecState (calls st ++ b ++ [CalledRender ui]) w2,
            Throw (AssertionError_notToThrow e)))
  ∧ (∀ w1 w2 w3 r c,
       runOptional (beforeRender t) (world st) = (w1, Return tt) →
       renderFunction options ui w1 = (w2, Return r) →
       runOptional (afterRender t) w2 = (w3, c) →
       testCallback options t subject st
         = (mkExecState (calls st ++ b ++ [CalledRender ui] ++ a) w3, c)).
Proof.
  intros ui b a. rewrite testCallback_unfold, awaitOptional_spec.
  fold ui b. split; [| split].
  - intros w1 e Hb. rewrite Hb. cbn [fst snd].
    subst b. by rewrite (runOptional_Throw _ _ _ _ _ Hb).
  - intros w1 w2 e Hb Hr. rewrite Hb. cbn [fst snd].
    unfold invoke. cbn [world calls].
    rewrite Hr. by rewrite <- app_assoc.
  - intros w1 w2 w3 r c Hb Hr Ha. rewrite Hb. cbn [fst snd].
    unfold invoke. cbn [world calls].
    rewrite Hr, awaitOptional_spec. cbn [world calls].
    rewrite Ha. cbn [fst snd]. by rewrite <- !app_assoc.
Qed.

(** Every registered test is the registration of the entry at the same
    position. *)
Lemma registered_test_of_entry MainComponent componentName options testsArg fw :
  getComponentName MainComponent = Return componentName →
  ∃ suite,
    fst (componentTestSuite MainComponent options testsArg fw) = fw ++ [suite]
    ∧ ∀ i rt, suite_tests suite !! i = Some rt →
        ∃ t, effectiveTests testsArg !! i = Some t
             ∧ rt = registrationOf MainComponent options t.
Proof.
  intros Hname.
  destruct (componentTestSuite_prefix MainComponent componentName options
              testsArg fw Hname) as (k & Hk & Hfst & _).
  eexists. split; [exact Hfst |].
  intros i rt Hi. cbn in Hi. rewrite list_lookup_fmap in Hi.
  destruct (take k (effectiveTests testsArg) !! i) as [t |] eqn:Ht;
    [| discriminate Hi].
  injection Hi as <-. exists t. split; [| reflexivity].
  rewrite lookup_take_Some in Ht. tauto.
Qed.

(** C4: the callback of every registered test runs [beforeRender], then
    the render function, then [afterRender], one after the other. If
    [beforeRender] rejects, the test fails with that rejection and the
    render function is not called. If the render function throws, the
    test fails with the did-not-throw assertion failure and [afterRender]
    is not called. [afterRender], when present, is called only after the
    render function has returned, and its outcome is the test's. *)
Theorem registered_test_runs_in_sequence
    MainComponent componentName options testsArg fw :
  getComponentName MainComponent = Return componentName →
  ∃ suite,
    fst (componentTestSuite MainComponent options testsArg fw) = fw ++ [suite]
    ∧ ∀ i rt, suite_tests suite !! i = Some rt →
      ∃ t, effectiveTests testsArg !! i = Some t ∧
        let ui := renderedElement options (thisTestComponent MainComponent t) in
        let b := callOf CalledBeforeRender (beforeRender t) in
        let a := callOf CalledAfterRender (afterRender t) in
        ∀ st,
          (∀ w1 e,
             runOptional (beforeRender t) (world st) = (w1, Throw e) →
             test_fn rt st
               = (mkExecState (calls st ++ [CalledBeforeRender]) w1, Throw e))
          ∧ (∀ w1 w2 e,
               runOptional (beforeRender t) (world st) = (w1, Return tt) →
               renderFunction options ui w1 = (w2, Throw e) →
               test_fn rt st
                 = (mkExecState (calls st ++ b ++ [CalledRender ui]) w2,
                    Throw (AssertionError_notToThrow e)))
          ∧ (∀ w1 w2 w3 r c,
               runOptional (beforeRender t) (world st) = (w1, Return tt) →
               renderFunction options ui w1 = (w2, Return r) →
               runOptional (afterRender t) w2 = (w3, c) →
               test_fn rt st
                 = (mkExecState (calls st ++ b ++ [CalledRender ui] ++ a) w3, c)).
Proof.
  intros Hname.
  destruct (registered_test_of_entry MainComponent componentName options
              testsArg fw Hname) as (suite & Hfst & Hreg).
  exists suite. split; [exact Hfst |].
  intros i rt Hi. destruct (Hreg i rt Hi) as (t & Ht & ->).
  exists t. split; [exact Ht |]. intros ui b a st.
  apply testCallback_protocol.
Qed.

Lemma renderCalls_app (l1 l2 : list Call) :
  renderCalls (l1 ++ l2) = renderCalls l1 ++ renderCalls l2.
Proof. apply omap_app. Qed.

Lemma renderCalls_callOf {A} (c : Call) (f : option A) :
  (∀ ui, c ≠ CalledRender ui) → renderCalls (callOf c f) = [].
Proof.
  intros Hc. destruct f; [| reflexivity]. destruct c; try reflexivity.
  by destruct (Hc ui).
Qed.

(** C9: once [beforeRender] is through, the callback of every registered
    test calls the render function exactly once, with one element whose
    only child is the entry's resolved component, as it is. With no
    [Wrapper] that element is the [React.Fragment] around the component,
    the default that wraps it in nothing; with a [Wrapper] its type is
    that [Wrapper]. *)
Theorem render_receives_wrapped_component
    MainComponent componentName options testsArg fw :
  getComponentName MainComponent = Return componentName →
  ∃ suite,
    fst (componentTestSuite MainComponent options testsArg fw) = fw ++ [suite]
    ∧ ∀ i rt, suite_tests suite !! i = Some rt →
      ∃ t, effectiveTests testsArg !! i = Some t ∧
        ∀ st w1,
          runOptional (beforeRender t) (world st) = (w1, Return tt) →
          ∃ ui,
            renderCalls (calls (fst (test_fn rt st)))
              = renderCalls (calls st) ++ [ui]
            ∧ children ui = [thisTestComponent MainComponent t]
            ∧ (Wrapper options = None → type ui = Fragment)
            ∧ (∀ W, Wrapper options = Some W → type ui = W).
Proof.
  intros Hname.
  destruct (registered_test_of_entry MainComponent componentName options
              testsArg fw Hname) as (suite & Hfst & Hreg).
  exists suite. split; [exact Hfst |].
  intros i rt Hi. destruct (Hreg i rt Hi) as (t & Ht & ->).
  exists t. split; [exact Ht |]. intros st w1 Hb.
  set (subject := thisTestComponent MainComponent t).
  exists (renderedElement options subject).
  split; [| split; [reflexivity | split]].
  - destruct (testCallback_protocol options t subject st) as (_ & Hthrow & Hret).
    cbn [test_fn registrationOf]. fold subject.
    destruct (renderFunction options (renderedElement options subject) w1)
      as [w2 [r | e]] eqn:Hr.
    + destruct (runOptional (afterRender t) w2) as [w3 c] eqn:Ha.
      rewrite (Hret _ _ _ _ _ Hb Hr Ha). cbn [fst calls].
      rewrite !renderCalls_app, !renderCalls_callOf by discriminate.
      reflexivity.
    + rewrite (Hthrow _ _ _ Hb Hr). cbn [fst calls].
      rewrite !renderCalls_app, !renderCalls_callOf by discriminate.
      reflexivity.
  - intros HW. unfold renderedElement. by rewrite HW.
  - intros W HW. unfold renderedElement. by rewrite HW.
Qed.

End ProtocolClaims.

(** ** The claims at concrete inputs *)

Lemma componentTestSuite_registers_one_suite_witness :
  ∃ suite,
    componentTestSuite Widget plainOptions twoEntries [] = ([] ++ [suite], Return tt)
    ∧ suite_name suite = "Widget"
    ∧ length (suite_tests suite) = max 1 (length twoEntries)
    ∧ (twoEntries = [] → map test_name (suite_tests suite)
                         = [testTitle plainOptions]).
Proof.
  apply (componentTestSuite_registers_one_suite Widget "Widget" plainOptions
           twoEntries []).
  - reflexivity.
  - repeat constructor.
Defined.

Lemma registered_titles_follow_entries_witness :
  ∃ suite,
    fst (componentTestSuite Widget plainOptions twoEntries []) = [] ++ [suite]
    ∧ map test_name (suite_tests suite)
      = ["renders the component - a"; "renders the component - b"].
Proof.
  destruct (registered_titles_follow_entries Widget "Widget" plainOptions
              twoEntries [] eq_refl) as (suite & Hfst & _ & Hall & _).
  exists suite. split; [exact Hfst |].
  rewrite Hall; [reflexivity | repeat constructor].
Defined.

Lemma unnamed_component_registers_nothing_witness :
  componentTestSuite Memoized plainOptions twoEntries []
    = ([], Throw (Error noNameMessage)).
Proof.
  apply (unnamed_component_registers_nothing Memoized plainOptions twoEntries []).
  reflexivity.
Defined.

Lemma getComponentName_resolution_witness :
  getComponentName Widget = Return "Widget" ∧ "Widget" ≠ "".
Proof.
  destruct (getComponentName_resolution Widget) as (Hget & H & _).
  split; [exact Hget | exact (H "Widget" eq_refl)].
Defined.

Lemma mapTestList_merges_witness :
  ∃ l', mapTestList (Some customEntries) addAfterRender = Some l'
        ∧ length l' = length customEntries
        ∧ ∃ t', l' !! 1 = Some t'
                ∧ t' !! "afterRender" = Some (VFun 1)
                ∧ t' !! "customProp" = Some (VStr "value2").
Proof.
  destruct (mapTestList_merges addAfterRender) as (_ & _ & H).
  destruct (H customEntries) as (l' & Hl & Hlen & Hfields).
  exists l'. split; [exact Hl |]. split; [exact Hlen |].
  destruct (Hfields 1 _ eq_refl) as (t' & Ht' & Hover & Hkeep).
  exists t'. split; [exact Ht' |]. split.
  - apply Hover. reflexivity.
  - rewrite Hkeep; reflexivity.
Defined.

Lemma registered_test_runs_in_sequence_witness :
  (∃ suite,
     fst (componentTestSuite Widget hookedOptions [hookedEntry; rejectingEntry] [])
       = [] ++ [suite]
     ∧ (∀ rt, suite_tests suite !! 0 = Some rt →
          test_fn rt (mkExecState [] tt)
          = (mkExecState [CalledBeforeRender;
                          CalledRender (createElement TestWrapper Widget)] tt,
             Throw (AssertionError_notToThrow (Error "render failed"))))
     ∧ (∀ rt, suite_tests suite !! 1 = Some rt →
          test_fn rt (mkExecState [] tt)
          = (mkExecState [CalledBeforeRender] tt, Throw (Error "setup failed"))))
  ∧ (∃ suite,
       fst (componentTestSuite Widget wrappedOptions [hookedEntry] []) = [] ++ [suite]
       ∧ ∀ rt, suite_tests suite !! 0 = Some rt →
           test_fn rt (mkExecState [] tt)
           = (mkExecState [CalledBeforeRender;
                           CalledRender (createElement TestWrapper Widget);
                           CalledAfterRender] tt,
              Return tt)).
Proof.
  split.
  - destruct (registered_test_runs_in_sequence Widget "Widget" hookedOptions
                [hookedEntry; rejectingEntry] [] eq_refl) as (suite & Hfst & Hrt).
    exists suite. split; [exact Hfst |]. split; intros rt Hlook.
    + destruct (Hrt 0 rt Hlook) as (t & Ht & Hrun). injection Ht as <-.
      destruct (Hrun (mkExecState [] tt)) as (_ & Hthrow & _).
      exact (Hthrow tt tt (Error "render failed") eq_refl eq_refl).
    + destruct (Hrt 1 rt Hlook) as (t & Ht & Hrun). injection Ht as <-.
      destruct (Hrun (mkExecState [] tt)) as (Hreject & _).
      exact (Hreject tt (Error "setup failed") eq_refl).
  - destruct (registered_test_runs_in_sequence Widget "Widget" wrappedOptions
                [hookedEntry] [] eq_refl) as (suite & Hfst & Hrt).
    exists suite. split; [exact Hfst |]. intros rt Hlook.
    destruct (Hrt 0 rt Hlook) as (t & Ht & Hrun). injection Ht as <-.
    destruct (Hrun (mkExecState [] tt)) as (_ & _ & Hdone).
    exact (Hdone tt tt tt tt (Return tt) eq_refl eq_refl eq_refl).
Defined.

Lemma render_receives_wrapped_component_witness :
  ∃ suite,
    fst (componentTestSuite Widget wrappedOptions twoEntries []) = [] ++ [suite]
    ∧ ∀ rt, suite_tests suite !! 1 = Some rt →
        ∃ ui, renderCalls (calls (fst (test_fn rt (mkExecState [] tt)))) = [ui]
              ∧ children ui = [WidgetWithProp]
              ∧ type ui = TestWrapper.
Proof.
  destruct (render_receives_wrapped_component Widget "Widget" wrappedOptions
              twoEntries [] eq_refl) as (suite & Hfst & Hrt).
  exists suite. split; [exact Hfst |]. intros rt Hlook.
  destruct (Hrt 1 rt Hlook) as (t & Ht & Hrun).
  injection Ht as <-.
  destruct (Hrun (mkExecState [] tt) tt eq_refl) as (ui & Hcalls & Hch & _ & HW).
  exists ui. split; [exact Hcalls |]. split; [exact Hch |].
  exact (HW TestWrapper eq_refl).
Defined.

(** ** The repository's own tests, replayed on the model *)

Example resolves_empty_args :
  resolveTestSuiteArgs [] = mkResolved (VObj ∅) (VArr []).
Proof. reflexivity. Qed.

Example resolves_with_only_test_list :
  resolveTestSuiteArgs [VArr someTestList] = mkResolved (VObj ∅) (VArr someTestList).
Proof. reflexivity. Qed.

Example resolves_with_only_overall_options :
  resolveTestSuiteArgs [someOptions] = mkResolved someOptions (VArr []).
Proof. reflexivity. Qed.

Example resolves_with_overall_options_and_test_list :
  resolveTestSuiteArgs [someOptions; VArr someTestList]
    = mkResolved someOptions (VArr someTestList).
Proof. reflexivity. Qed.

Example maps_empty_test_list :
  mapTestList (Some []) (λ _ : gmap string JsVal, ∅) = Some [].
Proof. reflexivity. Qed.

Example maps_undefined_test_list :
  mapTestList None (λ _ : gmap string JsVal, ∅) = None.
Proof. reflexivity. Qed.

Example creates_suite_with_default_render_test :
  let (fw, r) := componentTestSuite Widget plainOptions [] [] in
  r = Return tt
  ∧ map (λ s, (suite_fn s, suite_name s, map test_name (suite_tests s))) fw
    = [(describe, "Widget", ["renders the component"])].
Proof. split; reflexivity. Qed.

Example creates_suite_with_multiple_tests :
  let (fw, r) := componentTestSuite Widget plainOptions twoEntries [] in
  r = Return tt
  ∧ map (λ s, (suite_name s, map test_name (suite_tests s))) fw
    = [("Widget", ["renders the component - a"; "renders the component - b"])].
Proof. split; reflexivity. Qed.

Example calls_insideSuite_hook :
  map (λ s, (suite_fn s, suite_lifecycle s))
      (fst (componentTestSuite Widget hookedOptions [] []))
    = [(describe_only, [(beforeEach, 7)])].
Proof. reflexivity. Qed.

Example uses_custom_Wrapper :
  map (λ rt, map type (renderCalls (calls (fst (test_fn rt (mkExecState [] tt))))))
      (concat (map suite_tests (fst (componentTestSuite Widget wrappedOptions [] []))))
    = [[TestWrapper]].
Proof. reflexivity. Qed.

Example default_Wrapper_is_React_Fragment :
  map (λ rt, renderCalls (calls (fst (test_fn rt (mkExecState [] tt)))))
      (concat (map suite_tests (fst (componentTestSuite Widget plainOptions [] []))))
    = [[createElement Fragment Widget]].
Proof. reflexivity. Qed.

Example throws_error_when_component_types_mismatch :
  snd (componentTestSuite Widget plainOptions
         [entry None None; entry (Some "different component") (Some Gadget)] [])
    = Throw (Error "all tests must be of same component type (Widget)").
Proof. reflexivity. Qed.

(* ===================================================================== *)
(** * Further properties of the code *)
(* ===================================================================== *)

(** ** [resolveTestSuiteArgs] *)

Lemma nullish_coalesce_not_nullish (a b : JsVal) :
  b ≠ VUndefined → b ≠ VNull →
  nullish_coalesce a b ≠ VUndefined ∧ nullish_coalesce a b ≠ VNull.
Proof. intros Hu Hn. destruct a; cbn; split; done. Qed.

Lemma nullish_coalesce_id (a b : JsVal) :
  a ≠ VUndefined → a ≠ VNull → nullish_coalesce a b = a.
Proof. intros Hu Hn. destruct a; done. Qed.

(** X1: whatever the argument array, the resolved [overallOptions] is
    truthy and is not a list, and the resolved [tests] is neither
    [undefined] nor [null]. *)
Theorem resolveTestSuiteArgs_result_shape (args : list JsVal) :
  truthy (overallOptions (resolveTestSuiteArgs args)) = true
  ∧ isArray (overallOptions (resolveTestSuiteArgs args)) = false
  ∧ tests (resolveTestSuiteArgs args) ≠ VUndefined
  ∧ tests (resolveTestSuiteArgs args) ≠ VNull.
Proof.
  unfold resolveTestSuiteArgs.
  destruct (truthy (index args 0)) eqn:Ht; cbn [negb].
  - destruct (isArray (index args 0)) eqn:Ha; cbn.
    + destruct (index args 0); try discriminate Ha. done.
    + rewrite Ht, Ha. split; [done |]. split; [done |].
      by apply nullish_coalesce_not_nullish.
  - cbn. done.
Qed.

(** X2: resolving is idempotent: passing a result back as the pair
    (options, tests) resolves to that same result. *)
Theorem resolveTestSuiteArgs_idempotent (args : list JsVal) :
  resolveTestSuiteArgs
    [overallOptions (resolveTestSuiteArgs args); tests (resolveTestSuiteArgs args)]
  = resolveTestSuiteArgs args.
Proof.
  destruct (resolveTestSuiteArgs_result_shape args) as (Ht & Ha & Hu & Hn).
  rewrite resolve_options by done.
  change (index [tests (resolveTestSuiteArgs args)] 0)
    with (tests (resolveTestSuiteArgs args)).
  rewrite nullish_coalesce_id by done.
  by destruct (resolveTestSuiteArgs args).
Qed.

(** X3: only the first two elements of the argument array are read, and
    when the first one is a list the second is not read either. *)
Theorem resolveTestSuiteArgs_ignores_the_rest (a b : JsVal) (rest : list JsVal) :
  resolveTestSuiteArgs (a :: b :: rest) = resolveTestSuiteArgs [a; b]
  ∧ (isArray a = true →
     resolveTestSuiteArgs (a :: b :: rest) = resolveTestSuiteArgs [a]).
Proof.
  split; [reflexivity |].
  intros Ha. destruct a; try discriminate Ha. reflexivity.
Qed.

Lemma resolveTestSuiteArgs_ignores_the_rest_witness :
  resolveTestSuiteArgs [VArr someTestList; someOptions; VNum 3]
  = resolveTestSuiteArgs [VArr someTestList].
Proof.
  apply (resolveTestSuiteArgs_ignores_the_rest (VArr someTestList) someOptions
           [VNum 3]).
  reflexivity.
Defined.

(** X4: after truthy non-list options the second argument is not
    checked: [undefined] and [null] become the empty list, and anything
    else, list or not, falsy or not, comes back as [tests] as it is. *)
Theorem resolveTestSuiteArgs_second_unchecked (options second : JsVal)
    (rest : list JsVal) :
  truthy options = true → isArray options = false →
  (second = VUndefined ∨ second = VNull →
   tests (resolveTestSuiteArgs (options :: second :: rest)) = emptyArray)
  ∧ (second ≠ VUndefined → second ≠ VNull →
     tests (resolveTestSuiteArgs (options :: second :: rest)) = second).
Proof.
  intros Ht Ha. rewrite resolve_options by done. cbn [tests].
  change (index (second :: rest) 0) with second. split.
  - by intros [-> | ->].
  - apply nullish_coalesce_id.
Qed.

Lemma resolveTestSuiteArgs_second_unchecked_witness :
  tests (resolveTestSuiteArgs [someOptions; VNull]) = emptyArray
  ∧ tests (resolveTestSuiteArgs [someOptions; VBool false]) = VBool false.
Proof.
  split.
  - apply (resolveTestSuiteArgs_second_unchecked someOptions VNull []);
      [reflexivity | reflexivity | by right].
  - apply (resolveTestSuiteArgs_second_unchecked someOptions (VBool false) []);
      [reflexivity | reflexivity | discriminate | discriminate].
Defined.

(** ** [mapTestList] *)

(** X5: a callback that returns the empty object changes nothing: the
    list, or [undefined], comes back as it was. *)
Theorem mapTestList_empty_callback {V} (args : option (list (gmap string V))) :
  mapTestList args (λ _, ∅) = args.
Proof.
  destruct args as [l |]; [| reflexivity]. cbn. f_equal.
  induction l as [| t l IH]; [reflexivity |]. cbn.
  rewrite IH. unfold spread2. by rewrite (left_id_L ∅ (∪)).
Qed.

(** X6: the keys of each mapped entry are exactly the keys of the
    original entry together with the keys the callback returned for it:
    no field is lost and none is made up. *)
Theorem mapTestList_keys {V} (f : gmap string V → gmap string V)
    (l : list (gmap string V)) :
  ∃ l', mapTestList (Some l) f = Some l'
        ∧ (dom <$> l') = ((λ t, dom t ∪ dom (f t) : gset string) <$> l).
Proof.
  eexists. split; [reflexivity |].
  rewrite <- list_fmap_compose. apply list_fmap_ext.
  intros i t _. cbn. unfold spread2. rewrite dom_union_L.
  apply (comm_L (∪)).
Qed.

(** X7: mapping twice is mapping once with the merged callback: the
    second callback sees the entry as the first pass left it, and its
    fields win over those of the first. *)
Theorem mapTestList_twice {V} (f g : gmap string V → gmap string V)
    (args : option (list (gmap string V))) :
  mapTestList (mapTestList args f) g
  = mapTestList args (λ t, spread2 (f t) (g (spread2 t (f t)))).
Proof.
  destruct args as [l |]; [| reflexivity]. cbn. f_equal.
  rewrite map_map. apply map_ext. intros t.
  unfold spread2. by rewrite (assoc_L (∪)).
Qed.

(** ** [componentTestSuite]: registration *)

Lemma getComponentName_same_component (a b : Element) :
  type a = type b → displayName a = displayName b →
  getComponentName a = getComponentName b.
Proof. intros Ht Hd. unfold getComponentName. by rewrite Ht, Hd. Qed.

Lemma append_inj_r (a x y : string) : a +:+ x = a +:+ y → x = y.
Proof.
  induction a as [| c a IH]; [done |].
  change (String c a +:+ x) with (String c (a +:+ x)).
  change (String c a +:+ y) with (String c (a +:+ y)).
  intros [= H]. by apply IH.
Qed.

Lemma append_length (a x : string) :
  String.length (a +:+ x) = String.length a + String.length x.
Proof.
  induction a as [| c a IH]; [done |].
  change (String c a +:+ x) with (String c (a +:+ x)). cbn. by rewrite IH.
Qed.

Lemma append_grows (a x : string) : a +:+ x = a → x = EmptyString.
Proof.
  intros H. apply (f_equal String.length) in H. rewrite append_length in H.
  destruct x; [done | cbn in H; lia].
Qed.

Lemma effectiveSuffix_Some (suffix : option string) (x : string) :
  effectiveSuffix suffix = Some x → suffix = Some x ∧ str_truthy suffix = true.
Proof.
  unfold effectiveSuffix. destruct (str_truthy suffix) eqn:H; [| discriminate].
  by intros ->.
Qed.

Section RegistrationProperties.

Context {World RenderResult : Type}.

Implicit Types (t : TestCase World) (testsArg : list (TestCase World)).
Implicit Types (options : Options World RenderResult).
Implicit Types (fw : list (Suite World)).
Implicit Types (MainComponent : Element) (componentName : string).

Lemma registeredTitle_effectiveSuffix options t :
  registeredTitle options t =
    match effectiveSuffix (testTitleSuffix t) with
    | Some x => testTitle options +:+ " - " +:+ x
    | None => testTitle options
    end.
Proof.
  unfold registeredTitle, effectiveSuffix.
  destruct (str_truthy (testTitleSuffix t)) eqn:H.
  - destruct (testTitleSuffix t); [reflexivity | discriminate H].
  - apply append_empty_r.
Qed.

Lemma registeredTitle_inj options (t1 t2 : TestCase World) :
  registeredTitle options t1 = registeredTitle options t2 →
  effectiveSuffix (testTitleSuffix t1) = effectiveSuffix (testTitleSuffix t2).
Proof.
  rewrite !registeredTitle_effectiveSuffix.
  destruct (effectiveSuffix (testTitleSuffix t1)) as [x |],
           (effectiveSuffix (testTitleSuffix t2)) as [y |]; intros H.
  - apply append_inj_r in H. apply (append_inj_r " - ") in H. by subst.
  - apply append_grows in H. discriminate H.
  - symmetry in H. apply append_grows in H. discriminate H.
  - reflexivity.
Qed.

(** X8: two entries get the same registered title exactly when both have
    no suffix (absent or empty) or both have the same suffix; so an entry
    without suffix never shares its title with one that has a suffix. *)
Theorem registeredTitle_same_iff options (t1 t2 : TestCase World) :
  registeredTitle options t1 = registeredTitle options t2
  ↔ effectiveSuffix (testTitleSuffix t1) = effectiveSuffix (testTitleSuffix t2).
Proof.
  split; [apply registeredTitle_inj |].
  rewrite !registeredTitle_effectiveSuffix. by intros ->.
Qed.

(** X9: when the entries' suffixes are pairwise different (an empty
    suffix counting as none), a successful registration yields pairwise
    different test titles. *)
Theorem distinct_suffixes_give_distinct_titles
    MainComponent componentName options testsArg fw :
  getComponentName MainComponent = Return componentName →
  Forall (resolvesTo MainComponent componentName) testsArg →
  NoDup (map (λ t, effectiveSuffix (testTitleSuffix t)) testsArg) →
  ∃ suite,
    componentTestSuite MainComponent options testsArg fw = (fw ++ [suite], Return tt)
    ∧ NoDup (map test_name (suite_tests suite)).
Proof.
  intros Hname Hall Hnodup.
  rewrite (componentTestSuite_spec _ componentName) by done. cbv zeta.
  rewrite firstFailure_effective by done.
  apply firstFailure_None in Hall. rewrite Hall.
  eexists. split; [reflexivity |]. cbn. rewrite map_map. cbn.
  destruct testsArg as [| t0 rest]; [cbn; apply NoDup_singleton |].
  rewrite effectiveTests_nonempty by done.
  remember (t0 :: rest) as l eqn:Hl. clear Hl Hall.
  induction l as [| t l IH]; [constructor |].
  cbn in *. apply NoDup_cons in Hnodup as [Hnotin Hnodup].
  apply NoDup_cons. split; [| by apply IH].
  intros Hin. apply Hnotin.
  apply list_elem_of_fmap in Hin as (t' & Heq & Hin).
  apply list_elem_of_fmap. exists t'. split; [| done].
  by apply (registeredTitle_inj options).
Qed.

(** X10: when every entry's own component, if it has one, is an element
    of the same component as the main one (same type and display name,
    whatever its props and children), registration succeeds and every
    entry gets its test. *)
Theorem same_component_entries_register
    MainComponent componentName options testsArg fw :
  getComponentName MainComponent = Return componentName →
  Forall (sameComponentAs MainComponent) testsArg →
  componentTestSuite MainComponent options testsArg fw =
    (fw ++ [addTests (openedSuite componentName options)
              (map (registrationOf MainComponent options)
                   (effectiveTests testsArg))],
     Return tt).
Proof.
  intros Hname Hsame.
  rewrite (componentTestSuite_spec _ componentName) by done. cbv zeta.
  rewrite firstFailure_effective by done.
  assert (Hall : Forall (resolvesTo MainComponent componentName) testsArg).
  { eapply Forall_impl; [exact Hsame |]. intros t Ht.
    unfold resolvesTo, thisTestComponent.
    destruct (Component t) as [c |] eqn:Hc; [| exact Hname].
    destruct (Ht c Hc) as [Hty Hd].
    by rewrite (getComponentName_same_component c MainComponent). }
  apply firstFailure_None in Hall. by rewrite Hall.
Qed.

(** X11: what a call registers does not depend on what was registered
    before: it is appended after it, unchanged; a call adds at most one
    block, and adds one exactly when the main component has a name. *)
Theorem componentTestSuite_appends MainComponent options testsArg fw :
  componentTestSuite MainComponent options testsArg fw
    = (fw ++ fst (componentTestSuite MainComponent options testsArg []),
       snd (componentTestSuite MainComponent options testsArg []))
  ∧ (length (fst (componentTestSuite MainComponent options testsArg [])) ≤ 1)%nat
  ∧ (length (fst (componentTestSuite MainComponent options testsArg [])) = 1%nat
     ↔ ∃ componentName, getComponentName MainComponent = Return componentName).
Proof.
  destruct (getComponentName MainComponent) as [n | e] eqn:Hname.
  - rewrite !(componentTestSuite_spec _ n) by done. cbv zeta.
    destruct (firstFailure _ _ _) as [[i e] |]; cbn;
      (split; [done |]; split; [lia |]; split; [eauto | done]).
  - rewrite !(componentTestSuite_unnamed _ _ _ _ e) by done. cbn.
    rewrite app_nil_r. split; [done |]. split; [lia |].
    split; [discriminate | intros [n [=]]].
Qed.

(** X13: whenever the main component has a name, the block is registered
    through the chosen [suiteFn] ([describe] when none is given), under
    the component's name, and [insideSuite] has run exactly once on the
    fresh block, also when an entry then makes the call throw. *)
Theorem suite_is_opened_before_entries_are_checked
    MainComponent componentName options testsArg fw :
  getComponentName MainComponent = Return componentName →
  ∃ suite,
    fst (componentTestSuite MainComponent options testsArg fw) = fw ++ [suite]
    ∧ suite_fn suite = default describe (suiteFn options)
    ∧ suite_name suite = componentName
    ∧ suite_lifecycle suite
        = match insideSuite options with Some f => f [] | None => [] end.
Proof.
  intros Hname.
  destruct (componentTestSuite_prefix MainComponent componentName options
              testsArg fw Hname) as (k & _ & Hfst & _).
  eexists. split; [exact Hfst |]. done.
Qed.

(** X20: the entries after the first one that does not resolve to the
    main component's name are never looked at: replacing them by any
    others changes neither what is registered nor what is thrown. *)
Theorem entries_after_first_offender_are_ignored
    MainComponent componentName options (pre post post' : list (TestCase World))
    t fw :
  getComponentName MainComponent = Return componentName →
  Forall (resolvesTo MainComponent componentName) pre →
  ¬ resolvesTo MainComponent componentName t →
  componentTestSuite MainComponent options (pre ++ t :: post) fw
  = componentTestSuite MainComponent options (pre ++ t :: post') fw.
Proof.
  intros Hname Hpre Ht.
  destruct (caseError MainComponent componentName t) as [e |] eqn:He;
    [| by apply caseError_None in He].
  assert (Hff : ∀ rest, firstFailure MainComponent componentName (pre ++ t :: rest)
                        = Some (length pre, e)).
  { intros rest. apply firstFailure_Some. exists t.
    split; [by rewrite list_lookup_middle |]. split; [done |].
    by rewrite take_app_length. }
  rewrite !(componentTestSuite_spec _ componentName) by done. cbv zeta.
  rewrite !effectiveTests_nonempty by (by destruct pre).
  by rewrite !Hff, !take_app_length.
Qed.

End RegistrationProperties.

(** ** [componentTestSuite]: the callback of a test *)

Section CallbackProperties.

Context {World RenderResult : Type}.

Implicit Types (t : TestCase World) (options : Options World RenderResult).
Implicit Types (st : ExecState World) (subject : Element).

(** X14: whatever the hooks and the render function do, the calls a test
    makes are an initial part of the sequence [beforeRender] (if present),
    render, [afterRender] (if present), each at most once and in that
    order; at least one call is made, and a passing test has made the
    whole sequence. *)
Theorem testCallback_calls_in_order options t subject st :
  let full := callOf CalledBeforeRender (beforeRender t)
              ++ [CalledRender (renderedElement options subject)]
              ++ callOf CalledAfterRender (afterRender t) in
  ∃ new,
    calls (fst (testCallback options t subject st)) = calls st ++ new
    ∧ new `prefix_of` full
    ∧ new ≠ []
    ∧ (snd (testCallback options t subject st) = Return tt → new = full).
Proof.
  intros full.
  destruct (testCallback_protocol options t subject st) as (Hrej & Hthrow & Hret).
  destruct (runOptional (beforeRender t) (world st)) as [w1 [[] | e]] eqn:Hb.
  - destruct (renderFunction options (renderedElement options subject) w1)
      as [w2 [r | e]] eqn:Hr.
    + destruct (runOptional (afterRender t) w2) as [w3 c] eqn:Ha.
      rewrite (Hret _ _ _ _ _ eq_refl Hr Ha). cbn [fst snd calls].
      exists full. split; [done |]. split; [done |]. split; [| done].
      subst full. by destruct (callOf _ (beforeRender t)).
    + rewrite (Hthrow _ _ _ eq_refl Hr). cbn [fst snd calls].
      eexists. split; [reflexivity |]. split; [| split; [| discriminate]].
      * subst full. rewrite (assoc_L (++)). by apply prefix_app_r.
      * by destruct (callOf _ (beforeRender t)).
  - rewrite (Hrej _ _ eq_refl). cbn [fst snd calls].
    exists [CalledBeforeRender]. split; [done |].
    split; [| split; [done | discriminate]].
    subst full. rewrite (runOptional_Throw _ CalledBeforeRender _ _ _ Hb).
    by exists ([CalledRender (renderedElement options subject)]
               ++ callOf CalledAfterRender (afterRender t)).
Qed.

(** X15: a test passes exactly when [beforeRender] completes, then the
    render function returns in the world [beforeRender] left, then
    [afterRender] completes in the world rendering left; the value the
    render function returns plays no part. *)
Theorem test_passes_iff_all_steps_complete options t subject st :
  snd (testCallback options t subject st) = Return tt
  ↔ ∃ w1 w2 w3 r,
      runOptional (beforeRender t) (world st) = (w1, Return tt)
      ∧ renderFunction options (renderedElement options subject) w1
          = (w2, Return r)
      ∧ runOptional (afterRender t) w2 = (w3, Return tt).
Proof.
  destruct (testCallback_protocol options t subject st) as (Hrej & Hthrow & Hret).
  split.
  - destruct (runOptional (beforeRender t) (world st)) as [w1 [[] | e]] eqn:Hb.
    + destruct (renderFunction options (renderedElement options subject) w1)
        as [w2 [r | e]] eqn:Hr.
      * destruct (runOptional (afterRender t) w2) as [w3 c] eqn:Ha.
        rewrite (Hret _ _ _ _ _ eq_refl Hr Ha). cbn. intros ->. eauto 10.
      * rewrite (Hthrow _ _ _ eq_refl Hr). discriminate.
    + rewrite (Hrej _ _ eq_refl). discriminate.
  - intros (w1 & w2 & w3 & r & Hb & Hr & Ha).
    by rewrite (Hret _ _ _ _ _ Hb Hr Ha).
Qed.

End CallbackProperties.

(** ** The describe/test spy *)

Lemma attachToParent_spec (call : nat) (s : SpyState) :
  attachToParent call s =
    (mkSpyState
       (match last (currentDescribeStack s) with
        | Some parent => pushChild parent call (spyObjects s)
        | None => spyObjects s
        end)
       (currentDescribeStack s),
     Return tt).
Proof.
  unfold attachToParent. destruct s as [objects stack]. cbn [currentDescribeStack spyObjects].
  destruct stack as [| x stack]; [reflexivity |].
  change (0 <? length (x :: stack))%nat with true. cbv iota.
  by destruct (last (x :: stack)).
Qed.

Lemma describeEntered_spec (name : string) (fnRef : nat) (s : SpyState) :
  describeEntered name fnRef s =
    mkSpyState
      (match last (currentDescribeStack s) with
       | Some parent =>
           pushChild parent (length (spyObjects s))
             (spyObjects s ++ [mkSpyTestCall name fnRef (Some [])])
       | None => spyObjects s ++ [mkSpyTestCall name fnRef (Some [])]
       end)
      (currentDescribeStack s ++ [length (spyObjects s)]).
Proof.
  unfold describeEntered, bind, newObject.
  rewrite attachToParent_spec. reflexivity.
Qed.

Lemma describeEntered_stack (name : string) (fnRef : nat) (s : SpyState) :
  currentDescribeStack (describeEntered name fnRef s)
  = currentDescribeStack s ++ [length (spyObjects s)].
Proof. by rewrite describeEntered_spec. Qed.

Lemma spyDescribe_unfold (name : string) (fnRef : nat) (fn : Eff SpyState unit)
    (s : SpyState) :
  spyDescribe name fnRef fn s =
    match fn (describeEntered name fnRef s) with
    | (s2, Return _) => popStack s2
    | (s2, Throw e) => (s2, Throw e)
    end.
Proof.
  rewrite describeEntered_spec.
  unfold spyDescribe, bind, newObject. rewrite attachToParent_spec.
  unfold pushStack. cbn [currentDescribeStack spyObjects].
  by destruct (fn _) as [s2 [[] | e]].
Qed.

Lemma runTest_unfold (name : string) (fnRef : nat) (fn : Eff SpyState unit)
    (s : SpyState) :
  runTest name fnRef fn s =
    fn (mkSpyState
          (match last (currentDescribeStack s) with
           | Some parent =>
               pushChild parent (length (spyObjects s))
                 (spyObjects s ++ [mkSpyTestCall name fnRef None])
           | None => spyObjects s ++ [mkSpyTestCall name fnRef None]
           end)
          (currentDescribeStack s)).
Proof.
  unfold runTest, bind, newObject. by rewrite attachToParent_spec.
Qed.

(** X16: the spies keep [currentDescribeStack] balanced: if the body,
    when it returns, leaves the stack as it found it, then so does the
    spied [describe] of that body, and so does the spied [test]. *)
Theorem spies_keep_stack_balanced (name : string) (fnRef : nat)
    (fn : Eff SpyState unit) :
  stackNeutral fn →
  stackNeutral (spyDescribe name fnRef fn) ∧ stackNeutral (runTest name fnRef fn).
Proof.
  intros Hfn. split; intros s s'.
  - rewrite spyDescribe_unfold.
    destruct (fn (describeEntered name fnRef s)) as [s2 [[] | e]] eqn:Hrun;
      [| discriminate].
    intros [= <-]. cbn. rewrite (Hfn _ _ Hrun), describeEntered_stack.
    apply removelast_last.
  - rewrite runTest_unfold. intros Hrun. by rewrite (Hfn _ _ Hrun).
Qed.











(** X19: a spied [test] whose body leaves the spy alone is recorded in
    one place only. With no [describe] open, a new record is created and
    no existing record changes. Inside [describe]s, its reference is
    appended to the children of the innermost one, and every other
    existing record, the outer [describe]s included, is left as it
    was. *)
Theorem runTest_records_under_innermost (name : string) (fnRef : nat)
    (fn : Eff SpyState unit) (s : SpyState) :
  spyInert fn →
  (currentDescribeStack s = [] →
   fst (runTest name fnRef fn s)
   = mkSpyState (spyObjects s ++ [mkSpyTestCall name fnRef None]) [])
  ∧ (∀ outer p parent cs,
       currentDescribeStack s = outer ++ [p] →
       spyObjects s !! p = Some parent →
       spy_children parent = Some cs →
       let s' := fst (runTest name fnRef fn s) in
       currentDescribeStack s' = currentDescribeStack s
       ∧ length (spyObjects s') = S (length (spyObjects s))
       ∧ spyObjects s' !! length (spyObjects s) = Some (mkSpyTestCall name fnRef None)
       ∧ spyObjects s' !! p
           = Some (mkSpyTestCall (spy_name parent) (spy_fn parent)
                     (Some (cs ++ [length (spyObjects s)])))
       ∧ ∀ q, q ≠ p → (q < length (spyObjects s))%nat →
              spyObjects s' !! q = spyObjects s !! q).
Proof.
  intros Hfn. rewrite runTest_unfold, Hfn. split.
  - by intros ->.
  - intros outer p parent cs Hstack Hp Hcs. cbv zeta.
    rewrite Hstack, last_snoc. cbn [currentDescribeStack spyObjects].
    assert (Hlt : (p < length (spyObjects s))%nat) by by eapply lookup_lt_Some.
    unfold pushChild.
    split; [done |]. split; [| split; [| split]].
    + rewrite length_alter, length_app. cbn. lia.
    + rewrite list_lookup_alter_ne by lia.
      rewrite lookup_app_r by lia. by rewrite Nat.sub_diag.
    + rewrite list_lookup_alter_eq, lookup_app_l by done.
      rewrite Hp. cbn. by rewrite Hcs.
    + intros q Hq Hql. rewrite list_lookup_alter_ne by done.
      by rewrite lookup_app_l.
Qed.

(** ** The further properties at concrete inputs *)

Lemma distinct_suffixes_give_distinct_titles_witness :
  ∃ suite,
    componentTestSuite Widget plainOptions twoEntries [] = ([] ++ [suite], Return tt)
    ∧ NoDup (map test_name (suite_tests suite)).
Proof.
  apply (distinct_suffixes_give_distinct_titles Widget "Widget" plainOptions
           twoEntries []).
  - reflexivity.
  - repeat constructor.
  - apply NoDup_ListNoDup. repeat constructor; cbn; intros H;
      repeat (destruct H as [H | H]; [discriminate H |]); exact H.
Defined.

Lemma same_component_entries_register_witness :
  componentTestSuite Widget plainOptions twoEntries [] =
    ([] ++ [addTests (openedSuite "Widget" plainOptions)
              (map (registrationOf Widget plainOptions) (effectiveTests twoEntries))],
     Return tt).
Proof.
  apply (same_component_entries_register Widget "Widget" plainOptions twoEntries []).
  - reflexivity.
  - constructor; [intros c H; discriminate H |].
    constructor; [intros c [= <-]; split; reflexivity | constructor].
Defined.

Lemma suite_is_opened_before_entries_are_checked_witness :
  snd (componentTestSuite Widget hookedOptions widgetThenGadget [])
    = Throw (Error "all tests must be of same component type (Widget)")
  ∧ ∃ suite,
      fst (componentTestSuite Widget hookedOptions widgetThenGadget []) = [] ++ [suite]
      ∧ suite_fn suite = describe_only
      ∧ suite_name suite = "Widget"
      ∧ suite_lifecycle suite = [(beforeEach, 7)].
Proof.
  split; [reflexivity |].
  exact (suite_is_opened_before_entries_are_checked Widget "Widget" hookedOptions
           widgetThenGadget [] eq_refl).
Defined.

Lemma spies_keep_stack_balanced_witness :
  stackNeutral (spyDescribe "outer" 0 (runTest "inner" 1 (ret tt)))
  ∧ stackNeutral (runTest "outer" 0 (runTest "inner" 1 (ret tt))).
Proof.
  apply (spies_keep_stack_balanced "outer" 0 (runTest "inner" 1 (ret tt))).
  apply (spies_keep_stack_balanced "inner" 1 (ret tt)).
  intros s s' [= <-]. reflexivity.
Defined.



Lemma runTest_records_under_innermost_witness :
  let s := mkSpyState [mkSpyTestCall "outer" 0 (Some [1]);
                       mkSpyTestCall "inner" 1 (Some [])] [0; 1] in
  let s' := fst (runTest "t" 2 (ret tt) s) in
  spyObjects s' !! 1 = Some (mkSpyTestCall "inner" 1 (Some ([] ++ [2])))
  ∧ spyObjects s' !! 0 = spyObjects s !! 0.
Proof.
  intros s s'.
  destruct (runTest_records_under_innermost "t" 2 (ret tt) s (λ _, eq_refl))
    as [_ H].
  destruct (H [0] 1 (mkSpyTestCall "inner" 1 (Some [])) [] eq_refl eq_refl eq_refl)
    as (_ & _ & _ & Hp & Hq).
  split; [exact Hp |]. apply Hq; [discriminate | cbn; lia].
Defined.

Lemma entries_after_first_offender_are_ignored_witness :
  componentTestSuite Widget plainOptions
    ([entry (Some "a") None] ++ entry (Some "b") (Some Gadget)
       :: [entry (Some "c") (Some Memoized)]) []
  = componentTestSuite Widget plainOptions
      ([entry (Some "a") None] ++ entry (Some "b") (Some Gadget) :: twoEntries) [].
Proof.
  apply (entries_after_first_offender_are_ignored Widget "Widget" plainOptions
           [entry (Some "a") None] [entry (Some "c") (Some Memoized)] twoEntries
           (entry (Some "b") (Some Gadget)) []).
  - reflexivity.
  - repeat constructor.
  - discriminate.
Defined.
